(** * ValueControl: the value-acquisition state machine of ask-sdk-controls

    A shallow embedding of [src/commonControls/ValueControl.ts].  The
    control is an object whose methods mutate [this.state],
    [this.handleFunc] and [this.initiativeFunc] and append system acts to
    the [ControlResultBuilder] of the turn; methods may throw.  The
    embedding threads the control and the builder through a small monad
    in which a thrown error keeps the mutations made before it, as in
    JavaScript.  [async]/[await] is sequential here and is erased. *)

From Stdlib Require Import String List Bool Arith Lia.
Import ListNotations.
Local Open Scope string_scope.
Local Open Scope list_scope.

(** ** Constants *)

(** [constants/Strings] ([$] in the source) is not in src/.  The
    identifiers are the ones the doc comments of
    [ValueControlActionProps] and [ValueControlInteractionModelProps]
    give for the defaults ("Default: ['builtin_set']", ...). *)
Module Strings.
Definition Action_Set : string := "builtin_set".
Definition Action_Change : string := "builtin_change".
Definition Feedback_Affirm : string := "builtin_affirm".
Definition Feedback_Disaffirm : string := "builtin_disaffirm".
Definition Target_It : string := "builtin_it".
End Strings.

Module AmazonBuiltInSlotType.
Definition SEARCH_QUERY : string := "AMAZON.SearchQuery".
End AmazonBuiltInSlotType.

(** ** Errors and outcomes *)

(** What a method can throw: the [GuardFailed] of [okIf], the
    [TypeError] of a property access on [undefined], or a plain
    [Error] with its message. *)
Inductive Exception : Type :=
| GuardFailed
| TypeError (msg : string)
| Error (msg : string).

Inductive Outcome (A : Type) : Type :=
| Returned (a : A)
| Threw (e : Exception).
Arguments Returned {A} a.
Arguments Threw {A} e.

(** ** Control input *)

(** Modelled from the spec: [controls/ControlInput] and the intent
    classes are not in src/.  "ControlInput: normalized request - intent
    name, resolved slot values including feedback/action/target/value
    slots, raw platform payload"; only what ValueControl reads is kept.
    This is one resolved value slot of a [ValueControlIntent]. *)
Record SlotResolution : Type := {
  slotValue : option string;
  isEntityResolutionMatch : bool
}.

(** An intent with its slots already unpacked: the fields that
    [unpackValueControlIntent] and [unpackGeneralControlIntent] return. *)
Record Intent : Type := {
  name : string;
  feedback : option string;
  action : option string;
  target : option string;
  valueType : option string;
  values : list SlotResolution
}.

Inductive Request : Type :=
| IntentRequest (intent : Intent)
| LaunchRequest
| OtherRequest (type : string).

Record ControlInput : Type := { request : Request }.

(** ** Validation *)

Record ValidationFailure : Type := {
  reasonCode : option string;
  renderedReason : option string
}.

(** [true | ValidationFailure] *)
Inductive ValidationResult : Type :=
| VTrue
| VFailure (f : ValidationFailure).

(** ** Control state *)

Record LastInitiativeState : Type := { actName : option string }.

(** [ValueControlState].  [value], [erMatch], [elicitationAction] and
    [previousValue] may be [undefined]; [lastInitiative] is declared
    without [?] and the constructor sets it to [{}].  ([clear()], which
    replaces the state by a [new ValueControlState()] and leaves
    [lastInitiative] unset, is outside this type and is not modelled.) *)
Record ValueControlState : Type := {
  value : option string;
  erMatch : option bool;
  elicitationAction : option string;
  isValueConfirmed : bool;
  previousValue : option string;
  lastInitiative : LastInitiativeState
}.

Definition StateValidationFunction : Type :=
  ValueControlState -> ControlInput -> ValidationResult.

(** ** System acts *)

(** Modelled from the spec: [systemActs/ContentActs] and
    [systemActs/InitiativeActs] are not in src/.  "kinds split into
    content acts (ValueSet, ValueChanged, InvalidValue, ValueConfirmed,
    ValueDisconfirmed) and initiative acts (RequestValue,
    RequestChangedValue, ConfirmValue)".  Each act carries the id of its
    originating control and the payload the source builds for it. *)
Inductive SystemAct : Type :=
| ValueSetAct (control : string) (v renderedValue : option string)
| ValueChangedAct (control : string) (previous renderedPreviousValue : string)
    (v renderedValue : option string)
| InvalidValueAct (control : string) (v renderedValue : option string)
    (code renderedWhy : option string)
| ValueConfirmedAct (control : string) (v renderedValue : option string)
| ValueDisconfirmedAct (control : string) (v renderedValue : option string)
| RequestValueAct (control : string)
| RequestChangedValueAct (control : string) (currentValue renderedValue : option string)
| ConfirmValueAct (control : string) (v renderedValue : option string).

Definition takesInitiative (act : SystemAct) : bool :=
  match act with
  | RequestValueAct _ | RequestChangedValueAct _ _ _ | ConfirmValueAct _ _ _ => true
  | _ => false
  end.


Definition isValueChangedAct (act : SystemAct) : bool :=
  match act with ValueChangedAct _ _ _ _ _ => true | _ => false end.

(** [ConfirmValueAct.name], the class name. *)
Definition ConfirmValueAct_name : string := "ConfirmValueAct".

(** Modelled from the spec: [controls/ControlResult] is not in src/.
    "accumulates ordered system acts for the turn"; "appends acts in the
    order produced"; "exposes whether an initiative act is already
    present". *)
Record ControlResultBuilder : Type := { acts : list SystemAct }.

(** ** Handlers *)

(** The seven built-in handler methods, as the values that
    [this.handleFunc] can hold, called after their entries in
    [standardInputHandlers]. *)
Inductive BuiltinHandler : Type :=
| SetWithValue
| ChangeWithValue
| SetWithoutValue
| ChangeWithoutValue
| BareValue
| ConfirmationAffirmed
| ConfirmationDisaffirmed.

(** A handler function: a built-in method, or the [handle] of the n-th
    entry of [props.inputHandling.customHandlingFuncs]. *)
Inductive HandleFunc : Type :=
| Builtin (h : BuiltinHandler)
| Custom (n : nat).

(** The three initiative methods, as the values of [this.initiativeFunc]. *)
Inductive InitiativeFunc : Type :=
| ConfirmValue
| FixInvalidValue
| ElicitValue.

(** A custom input handler.  User code: its predicate is taken as a pure
    function of the control state and the input, its effect as a
    function on the control state and the acts of the turn. *)
Record CustomHandler : Type := {
  custom_name : string;
  custom_canHandle : ValueControlState -> ControlInput -> bool;
  custom_handle : ControlInput -> ValueControlState -> list SystemAct ->
                  Outcome unit * ValueControlState * list SystemAct
}.

(** ** Props *)

(** [ValueControlProps] as the user writes them: everything but [id] and
    [slotType] is optional.  [validation] is one function or an array;
    [required] and [confirmationRequired] are a boolean or a function of
    the input (a boolean is the constant function).  Prompts and
    reprompts only feed [renderAct] and are left out. *)
Module Raw.
Record ValueControlProps : Type := {
  id : string;
  slotType : string;
  validation : option (list StateValidationFunction);
  required : option (ControlInput -> bool);
  confirmationRequired : option (ControlInput -> bool);
  targets : option (list string);
  actions_set : option (list string);
  actions_change : option (list string);
  customHandlingFuncs : option (list CustomHandler);
  valueRenderer : option (string -> ControlInput -> string)
}.
End Raw.

(** [DeepRequired<ValueControlProps>] *)
Record ValueControlProps : Type := {
  id : string;
  slotType : string;
  validation : list StateValidationFunction;
  required : ControlInput -> bool;
  confirmationRequired : ControlInput -> bool;
  targets : list string;
  actions_set : list string;
  actions_change : list string;
  customHandlingFuncs : list CustomHandler;
  valueRenderer : string -> ControlInput -> string
}.

(** [_.merge] on arrays goes index by index: the source overwrites the
    positions it has, the rest of the default stays. *)
Fixpoint merge_array {A : Type} (dflt src : list A) : list A :=
  match dflt, src with
  | _, [] => dflt
  | [], _ => src
  | _ :: dflt', x :: src' => x :: merge_array dflt' src'
  end.

Definition merge_with {A : Type} (dflt : A) (o : option A) : A :=
  match o with Some a => a | None => dflt end.

Definition mergeWithDefaultProps (p : Raw.ValueControlProps) : ValueControlProps :=
  {| id := Raw.id p;
     slotType := Raw.slotType p;
     required := merge_with (fun _ => true) (Raw.required p);
     validation := merge_with [] (Raw.validation p);
     confirmationRequired := merge_with (fun _ => false) (Raw.confirmationRequired p);
     actions_set :=
       merge_array [Strings.Action_Set] (merge_with [] (Raw.actions_set p));
     actions_change :=
       merge_array [Strings.Action_Change] (merge_with [] (Raw.actions_change p));
     targets := merge_array [Strings.Target_It] (merge_with [] (Raw.targets p));
     customHandlingFuncs := merge_with [] (Raw.customHandlingFuncs p);
     valueRenderer := merge_with (fun v _ => v) (Raw.valueRenderer p) |}.

(** ** The control object and the turn *)

Record ValueControl : Type := {
  props : ValueControlProps;
  state : ValueControlState;
  handleFunc : option HandleFunc;
  initiativeFunc : option InitiativeFunc
}.

(** What the methods of one turn read and write: the control and the
    result builder they are handed. *)
Record Turn : Type := {
  this : ValueControl;
  resultBuilder : ControlResultBuilder
}.

(** [new ValueControlState()]: only [isValueConfirmed] has an
    initialiser; the constructor then sets [lastInitiative = {}]. *)
Definition new_ValueControlState : ValueControlState :=
  {| value := None; erMatch := None; elicitationAction := None;
     isValueConfirmed := false; previousValue := None;
     lastInitiative := {| actName := None |} |}.

Definition SEARCH_QUERY_message : string :=
  "AMAZON.SearchQuery cannot be used with ValueControl due to the special rules regarding its use. Specifically, utterances that include SearchQuery must have a carrier phrase and not be comprised entirely of slot references. Use a custom intent to manage SearchQuery slots or create a regular slot for use with ValueControl.".

(** [constructor(props)] *)
Definition new_ValueControl (p : Raw.ValueControlProps) : Outcome ValueControl :=
  if String.eqb (Raw.slotType p) AmazonBuiltInSlotType.SEARCH_QUERY
  then Threw (Error SEARCH_QUERY_message)
  else Returned {| props := mergeWithDefaultProps p;
                   state := new_ValueControlState;
                   handleFunc := None;
                   initiativeFunc := None |}.

(** [new ControlResultBuilder(...)] *)
Definition new_ControlResultBuilder : ControlResultBuilder := {| acts := [] |}.

(** ** The method monad *)

(** A method body: from the turn before the call to its outcome and the
    turn after it.  A throw keeps the turn as it was when thrown. *)
Definition M (A : Type) : Type := Turn -> Outcome A * Turn.

Definition ret {A} (a : A) : M A := fun t => (Returned a, t).

Definition throw {A} (e : Exception) : M A := fun t => (Threw e, t).

Definition bind {A B} (m : M A) (k : A -> M B) : M B :=
  fun t =>
    match m t with
    | (Returned a, t') => k a t'
    | (Threw e, t') => (Threw e, t')
    end.

(** [try { m } catch (e) { h(e) }] *)
Definition try_catch {A} (m : M A) (h : Exception -> M A) : M A :=
  fun t =>
    match m t with
    | (Returned a, t') => (Returned a, t')
    | (Threw e, t') => h e t'
    end.

Definition gets {A} (f : Turn -> A) : M A := fun t => (Returned (f t), t).

Definition modify (f : Turn -> Turn) : M unit := fun t => (Returned tt, f t).

Declare Scope method_scope.
Delimit Scope method_scope with method.
Notation "x <- m ;; k" := (bind m (fun x => k))
  (at level 61, m at next level, right associativity) : method_scope.
Notation "m ;; k" := (bind m (fun _ => k))
  (at level 61, right associativity) : method_scope.
Local Open Scope method_scope.

(** ** Field assignments *)

Definition with_state (f : ValueControlState -> ValueControlState) (t : Turn) : Turn :=
  {| this := {| props := props (this t);
                state := f (state (this t));
                handleFunc := handleFunc (this t);
                initiativeFunc := initiativeFunc (this t) |};
     resultBuilder := resultBuilder t |}.

Definition with_handleFunc (h : option HandleFunc) (t : Turn) : Turn :=
  {| this := {| props := props (this t);
                state := state (this t);
                handleFunc := h;
                initiativeFunc := initiativeFunc (this t) |};
     resultBuilder := resultBuilder t |}.

Definition with_initiativeFunc (i : option InitiativeFunc) (t : Turn) : Turn :=
  {| this := {| props := props (this t);
                state := state (this t);
                handleFunc := handleFunc (this t);
                initiativeFunc := i |};
     resultBuilder := resultBuilder t |}.

Definition with_acts (f : list SystemAct -> list SystemAct) (t : Turn) : Turn :=
  {| this := this t;
     resultBuilder := {| acts := f (acts (resultBuilder t)) |} |}.

Definition set_value (v : option string) (s : ValueControlState) :=
  {| value := v; erMatch := erMatch s; elicitationAction := elicitationAction s;
     isValueConfirmed := isValueConfirmed s; previousValue := previousValue s;
     lastInitiative := lastInitiative s |}.

Definition set_erMatch (b : option bool) (s : ValueControlState) :=
  {| value := value s; erMatch := b; elicitationAction := elicitationAction s;
     isValueConfirmed := isValueConfirmed s; previousValue := previousValue s;
     lastInitiative := lastInitiative s |}.

Definition set_elicitationAction (a : option string) (s : ValueControlState) :=
  {| value := value s; erMatch := erMatch s; elicitationAction := a;
     isValueConfirmed := isValueConfirmed s; previousValue := previousValue s;
     lastInitiative := lastInitiative s |}.

Definition set_isValueConfirmed (b : bool) (s : ValueControlState) :=
  {| value := value s; erMatch := erMatch s; elicitationAction := elicitationAction s;
     isValueConfirmed := b; previousValue := previousValue s;
     lastInitiative := lastInitiative s |}.

Definition set_previousValue (v : option string) (s : ValueControlState) :=
  {| value := value s; erMatch := erMatch s; elicitationAction := elicitationAction s;
     isValueConfirmed := isValueConfirmed s; previousValue := v;
     lastInitiative := lastInitiative s |}.

Definition set_lastInitiative_actName (n : option string) (s : ValueControlState) :=
  {| value := value s; erMatch := erMatch s; elicitationAction := elicitationAction s;
     isValueConfirmed := isValueConfirmed s; previousValue := previousValue s;
     lastInitiative := {| actName := n |} |}.

(** [this.state], [this.props] as reads. *)
Definition this_state : M ValueControlState := gets (fun t => state (this t)).
Definition this_props : M ValueControlProps := gets (fun t => props (this t)).

(** ** Collaborators that are not in src/ *)

(** Modelled from the spec: [utils/Predicates] is not in src/.  [okIf]
    throws the guard failure when its argument is false, and
    [falseIfGuardFailed] turns exactly that failure into [false] and
    rethrows anything else. *)
Definition okIf (b : bool) : M unit :=
  if b then ret tt else throw GuardFailed.

Definition falseIfGuardFailed (e : Exception) : M bool :=
  match e with
  | GuardFailed => ret false
  | _ => throw e
  end.

Definition includes (l : list string) (s : string) : bool :=
  existsb (String.eqb s) l.

Definition isDefined {A} (o : option A) : bool :=
  match o with Some _ => true | None => false end.

(** Modelled from the spec: [utils/InputUtil], [intents/ValueControlIntent]
    and [intents/GeneralControlIntent] are not in src/.  "inputs arrive
    already resolved into intents/slots"; "for intents, an intent name
    plus a fixed slot vocabulary {feedback, action, target, head, tail}
    plus one value-bearing slot per relevant control, each slot
    optionally carrying an entity-resolution match indicator".  Each
    predicate tests what its name says. *)
Module InputUtil.
Definition isIntent (input : ControlInput) (intentName : string) : bool :=
  match request input with
  | IntentRequest i => String.eqb (name i) intentName
  | _ => false
  end.

Definition targetIsMatchOrUndefined (t : option string) (ids : list string) : bool :=
  match t with None => true | Some x => includes ids x end.

Definition targetIsUndefined (t : option string) : bool := negb (isDefined t).

Definition feedbackIsMatchOrUndefined (f : option string) (ids : list string) : bool :=
  match f with None => true | Some x => includes ids x end.

Definition feedbackIsUndefined (f : option string) : bool := negb (isDefined f).

Definition actionIsMatch (a : option string) (ids : list string) : bool :=
  match a with None => false | Some x => includes ids x end.

Definition actionIsUndefined (a : option string) : bool := negb (isDefined a).

Definition valueTypeMatch (vt : option string) (slot : string) : bool :=
  match vt with None => false | Some x => String.eqb x slot end.

Definition valueStrDefined (v : option string) : bool := isDefined v.

(** "AMAZON.YesIntent" and "AMAZON.NoIntent", the intents the class
    comment of ValueControl lists. *)
Definition isBareYes (input : ControlInput) : bool :=
  isIntent input "AMAZON.YesIntent".

Definition isBareNo (input : ControlInput) : bool :=
  isIntent input "AMAZON.NoIntent".

(** [(input.request as IntentRequest).intent]: [undefined] when the
    request is not an intent request, and the next property access
    fails. *)
Definition intentOf (input : ControlInput) : M Intent :=
  match request input with
  | IntentRequest i => ret i
  | _ => throw (TypeError "Cannot destructure property of undefined")
  end.

(** [values[0]] followed by a property access. *)
Definition first_value (i : Intent) : M SlotResolution :=
  match values i with
  | v :: _ => ret v
  | [] => throw (TypeError "Cannot read properties of undefined")
  end.

(** [getValueResolution(input)]: the string of the value slot and its
    entity-resolution match flag. *)
Definition getValueResolution (input : ControlInput) : M (string * bool) :=
  i <- intentOf input ;;
  v <- first_value i ;;
  match slotValue v with
  | Some s => ret (s, isEntityResolutionMatch v)
  | None => throw (TypeError "Cannot read properties of undefined")
  end.
End InputUtil.

(** [ValueControlIntent.intentName(slotType)]: the doc comment of
    [generateSlotElicitationDetails] gives [{slotType}_ValueControlIntent]. *)
Definition ValueControlIntent_intentName (slot : string) : string :=
  (slot ++ "_ValueControlIntent")%string.

(** [GeneralControlIntent.name], the class name. *)
Definition GeneralControlIntent_name : string := "GeneralControlIntent".

(** Modelled from the spec: [controls/Validation] is not in src/.  "an
    ordered list of predicates over (state, input); first failure wins". *)
Fixpoint evaluateValidationProp (fs : list StateValidationFunction)
    (s : ValueControlState) (input : ControlInput) : ValidationResult :=
  match fs with
  | [] => VTrue
  | f :: rest =>
      match f s input with
      | VTrue => evaluateValidationProp rest s input
      | VFailure r => VFailure r
      end
  end.

(** Modelled from the spec: [ControlResultBuilder.addAct] and
    [hasInitiativeAct] are not in src/ (see [ControlResultBuilder]). *)
Definition addAct (act : SystemAct) : M unit :=
  modify (with_acts (fun l => l ++ [act])).

Definition hasInitiativeAct : M bool :=
  gets (fun t => existsb takesInitiative (acts (resultBuilder t))).

(** Modelled from the spec: [controls/Control] is not in src/.
    [evaluateBooleanProp(prop, input)] is the value at the input of a
    prop that is "boolean | ((input: ControlInput) => boolean)". *)
Definition evaluateBooleanProp (p : ControlInput -> bool) (input : ControlInput) : bool :=
  p input.

(** [this.props.valueRenderer(this.state.value!, input)] *)
Definition render (p : ValueControlProps) (v : option string) (input : ControlInput)
  : option string :=
  option_map (fun s => valueRenderer p s input) v.

(** ** ValueControl: input predicates and handlers *)

Definition set_handleFunc (h : BuiltinHandler) : M unit :=
  modify (with_handleFunc (Some (Builtin h))).

Definition set_initiativeFunc (i : InitiativeFunc) : M unit :=
  modify (with_initiativeFunc (Some i)).

Definition feedbackIds : list string :=
  [Strings.Feedback_Affirm; Strings.Feedback_Disaffirm].

(** [setValue(value, erMatch = true)] *)
Definition setValue (v : string) (er : option bool) : M unit :=
  let erMatch := match er with Some b => b | None => true end in
  modify (with_state (fun s => set_previousValue (value s) s)) ;;
  modify (with_state (set_value (Some v))) ;;
  modify (with_state (set_erMatch (Some erMatch))) ;;
  modify (with_state (set_isValueConfirmed false)).

(** [askElicitationQuestion(input, resultBuilder, elicitationAction)] *)
Definition askElicitationQuestion (input : ControlInput) (elicitationAction : string)
  : M unit :=
  modify (with_state (set_elicitationAction (Some elicitationAction))) ;;
  p <- this_props ;;
  s <- this_state ;;
  if String.eqb elicitationAction Strings.Action_Set then
    addAct (RequestValueAct (id p))
  else if String.eqb elicitationAction Strings.Action_Change then
    addAct (RequestChangedValueAct (id p) (value s) (render p (value s) input))
  else
    throw (Error ("Unhandled. Unknown elicitationAction: " ++ elicitationAction)%string).

Definition ValueChangedAct_message : string :=
  "ValueChangedAct should only be used if there is an actual previous value".

(** [validateAndAddActs(input, resultBuilder, elicitationAction)] *)
Definition validateAndAddActs (input : ControlInput) (elicitationAction : string)
  : M unit :=
  modify (with_state (set_elicitationAction (Some elicitationAction))) ;;
  p <- this_props ;;
  s <- this_state ;;
  match evaluateValidationProp (validation p) s input with
  | VTrue =>
      if String.eqb elicitationAction Strings.Action_Change then
        match previousValue s with
        | Some pv =>
            addAct (ValueChangedAct (id p) pv (valueRenderer p pv input)
                      (value s) (render p (value s) input))
        | None => throw (Error ValueChangedAct_message)
        end
      else
        addAct (ValueSetAct (id p) (value s) (render p (value s) input))
  | VFailure f =>
      addAct (InvalidValueAct (id p) (value s) (render p (value s) input)
                (reasonCode f) (renderedReason f)) ;;
      askElicitationQuestion input elicitationAction
  end.

Definition isSetWithValue (input : ControlInput) : M bool :=
  try_catch
    (p <- this_props ;;
     okIf (InputUtil.isIntent input (ValueControlIntent_intentName (slotType p))) ;;
     i <- InputUtil.intentOf input ;;
     v0 <- InputUtil.first_value i ;;
     okIf (InputUtil.targetIsMatchOrUndefined (target i) (targets p)) ;;
     okIf (InputUtil.valueTypeMatch (valueType i) (slotType p)) ;;
     okIf (InputUtil.valueStrDefined (slotValue v0)) ;;
     okIf (InputUtil.feedbackIsMatchOrUndefined (feedback i) feedbackIds) ;;
     okIf (InputUtil.actionIsMatch (action i) (actions_set p)) ;;
     set_handleFunc SetWithValue ;;
     ret true)
    falseIfGuardFailed.

Definition handleSetWithValue (input : ControlInput) : M unit :=
  r <- InputUtil.getValueResolution input ;;
  setValue (fst r) (Some (snd r)) ;;
  validateAndAddActs input Strings.Action_Set.

Definition isSetWithoutValue (input : ControlInput) : M bool :=
  try_catch
    (p <- this_props ;;
     okIf (InputUtil.isIntent input GeneralControlIntent_name) ;;
     i <- InputUtil.intentOf input ;;
     okIf (InputUtil.targetIsMatchOrUndefined (target i) (targets p)) ;;
     okIf (InputUtil.feedbackIsMatchOrUndefined (feedback i) feedbackIds) ;;
     okIf (InputUtil.actionIsMatch (action i) (actions_set p)) ;;
     set_handleFunc SetWithoutValue ;;
     ret true)
    falseIfGuardFailed.

Definition handleSetWithoutValue (input : ControlInput) : M unit :=
  askElicitationQuestion input Strings.Action_Set.

Definition isChangeWithValue (input : ControlInput) : M bool :=
  try_catch
    (p <- this_props ;;
     okIf (InputUtil.isIntent input (ValueControlIntent_intentName (slotType p))) ;;
     i <- InputUtil.intentOf input ;;
     v0 <- InputUtil.first_value i ;;
     okIf (InputUtil.targetIsMatchOrUndefined (target i) (targets p)) ;;
     okIf (InputUtil.valueTypeMatch (valueType i) (slotType p)) ;;
     okIf (InputUtil.valueStrDefined (slotValue v0)) ;;
     okIf (InputUtil.feedbackIsMatchOrUndefined (feedback i) feedbackIds) ;;
     okIf (InputUtil.actionIsMatch (action i) (actions_change p)) ;;
     set_handleFunc ChangeWithValue ;;
     ret true)
    falseIfGuardFailed.

Definition handleChangeWithValue (input : ControlInput) : M unit :=
  r <- InputUtil.getValueResolution input ;;
  setValue (fst r) (Some (snd r)) ;;
  validateAndAddActs input Strings.Action_Change.

Definition isChangeWithoutValue (input : ControlInput) : M bool :=
  try_catch
    (p <- this_props ;;
     okIf (InputUtil.isIntent input GeneralControlIntent_name) ;;
     i <- InputUtil.intentOf input ;;
     okIf (InputUtil.targetIsMatchOrUndefined (target i) (targets p)) ;;
     okIf (InputUtil.feedbackIsMatchOrUndefined (feedback i) feedbackIds) ;;
     okIf (InputUtil.actionIsMatch (action i) (actions_change p)) ;;
     set_handleFunc ChangeWithoutValue ;;
     ret true)
    falseIfGuardFailed.

Definition handleChangeWithoutValue (input : ControlInput) : M unit :=
  askElicitationQuestion input Strings.Action_Change.

Definition isBareValue (input : ControlInput) : M bool :=
  try_catch
    (p <- this_props ;;
     okIf (InputUtil.isIntent input (ValueControlIntent_intentName (slotType p))) ;;
     i <- InputUtil.intentOf input ;;
     v0 <- InputUtil.first_value i ;;
     okIf (InputUtil.feedbackIsUndefined (feedback i)) ;;
     okIf (InputUtil.actionIsUndefined (action i)) ;;
     okIf (InputUtil.targetIsUndefined (target i)) ;;
     okIf (InputUtil.valueStrDefined (slotValue v0)) ;;
     okIf (InputUtil.valueTypeMatch (valueType i) (slotType p)) ;;
     set_handleFunc BareValue ;;
     ret true)
    falseIfGuardFailed.

(** The action is [this.state.elicitationAction ?? $.Action.Set], read
    after [setValue]. *)
Definition handleBareValue (input : ControlInput) : M unit :=
  r <- InputUtil.getValueResolution input ;;
  setValue (fst r) (Some (snd r)) ;;
  s <- this_state ;;
  validateAndAddActs input
    (match elicitationAction s with Some a => a | None => Strings.Action_Set end).

Definition actName_is_ConfirmValueAct (s : ValueControlState) : bool :=
  match actName (lastInitiative s) with
  | Some n => String.eqb n ConfirmValueAct_name
  | None => false
  end.

Definition isConfirmationAffirmed (input : ControlInput) : M bool :=
  try_catch
    (okIf (InputUtil.isBareYes input) ;;
     s <- this_state ;;
     okIf (actName_is_ConfirmValueAct s) ;;
     set_handleFunc ConfirmationAffirmed ;;
     ret true)
    falseIfGuardFailed.

Definition handleConfirmationAffirmed (input : ControlInput) : M unit :=
  modify (with_state (set_lastInitiative_actName None)) ;;
  modify (with_state (set_isValueConfirmed true)) ;;
  p <- this_props ;;
  s <- this_state ;;
  addAct (ValueConfirmedAct (id p) (value s) (render p (value s) input)).

Definition isConfirmationDisaffirmed (input : ControlInput) : M bool :=
  try_catch
    (okIf (InputUtil.isBareNo input) ;;
     s <- this_state ;;
     okIf (actName_is_ConfirmValueAct s) ;;
     set_handleFunc ConfirmationDisaffirmed ;;
     ret true)
    falseIfGuardFailed.

Definition handleConfirmationDisaffirmed (input : ControlInput) : M unit :=
  modify (with_state (set_isValueConfirmed false)) ;;
  modify (with_state (set_lastInitiative_actName None)) ;;
  p <- this_props ;;
  s <- this_state ;;
  addAct (ValueDisconfirmedAct (id p) (value s) (render p (value s) input)) ;;
  addAct (RequestValueAct (id p)).

(** ** ValueControl: initiative *)

(** [a || b] on method results: [b] runs only when [a] returned false. *)
Definition orM (a b : M bool) : M bool :=
  x <- a ;; if x then ret true else b.

Definition wantsToConfirmValue (input : ControlInput) : M bool :=
  s <- this_state ;;
  p <- this_props ;;
  if isDefined (value s) && Bool.eqb (isValueConfirmed s) false
     && evaluateBooleanProp (confirmationRequired p) input
  then set_initiativeFunc ConfirmValue ;; ret true
  else ret false.

Definition confirmValue (input : ControlInput) : M unit :=
  modify (with_state (set_lastInitiative_actName (Some ConfirmValueAct_name))) ;;
  p <- this_props ;;
  s <- this_state ;;
  addAct (ConfirmValueAct (id p) (value s) (render p (value s) input)).

Definition isVTrue (r : ValidationResult) : bool :=
  match r with VTrue => true | VFailure _ => false end.

Definition wantsToFixInvalidValue (input : ControlInput) : M bool :=
  s <- this_state ;;
  p <- this_props ;;
  if isDefined (value s)
     && negb (isVTrue (evaluateValidationProp (validation p) s input))
  then set_initiativeFunc FixInvalidValue ;; ret true
  else ret false.

Definition fixInvalidValue (input : ControlInput) : M unit :=
  validateAndAddActs input Strings.Action_Change.

Definition wantsToElicitValue (input : ControlInput) : M bool :=
  s <- this_state ;;
  p <- this_props ;;
  if negb (isDefined (value s)) && evaluateBooleanProp (required p) input
  then set_initiativeFunc ElicitValue ;; ret true
  else ret false.

Definition elicitValue (input : ControlInput) : M unit :=
  askElicitationQuestion input Strings.Action_Set.

Definition canTakeInitiative (input : ControlInput) : M bool :=
  orM (wantsToConfirmValue input)
      (orM (wantsToFixInvalidValue input) (wantsToElicitValue input)).

(** [this.initiativeFunc(input, resultBuilder)] *)
Definition call_initiativeFunc (f : InitiativeFunc) (input : ControlInput) : M unit :=
  match f with
  | ConfirmValue => confirmValue input
  | FixInvalidValue => fixInvalidValue input
  | ElicitValue => elicitValue input
  end.

Definition takeInitiative_message : string :=
  "ValueControl: takeInitiative called but this.initiativeFunc is not set. canTakeInitiative() should be called first to set this.initiativeFunc.".

Definition takeInitiative (input : ControlInput) : M unit :=
  f <- gets (fun t => initiativeFunc (this t)) ;;
  match f with
  | None => throw (Error takeInitiative_message)
  | Some i => call_initiativeFunc i input
  end.

(** ** ValueControl: dispatch *)

(** [ControlInputHandler]: name, predicate, and the function that
    becomes [handleFunc] when the handler is chosen. *)
Record ControlInputHandler : Type := {
  handler_name : string;
  handler_canHandle : ControlInput -> M bool;
  handler_handle : HandleFunc
}.

Definition standardInputHandlers : list ControlInputHandler :=
  [ {| handler_name := "SetWithValue (built-in)";
       handler_canHandle := isSetWithValue;
       handler_handle := Builtin SetWithValue |};
    {| handler_name := "ChangeWithValue (built-in)";
       handler_canHandle := isChangeWithValue;
       handler_handle := Builtin ChangeWithValue |};
    {| handler_name := "SetWithoutValue (built-in)";
       handler_canHandle := isSetWithoutValue;
       handler_handle := Builtin SetWithoutValue |};
    {| handler_name := "ChangeWithoutValue (built-in)";
       handler_canHandle := isChangeWithoutValue;
       handler_handle := Builtin ChangeWithoutValue |};
    {| handler_name := "isBareValue (built-in)";
       handler_canHandle := isBareValue;
       handler_handle := Builtin BareValue |};
    {| handler_name := "ConfirmationAffirmed (built-in)";
       handler_canHandle := isConfirmationAffirmed;
       handler_handle := Builtin ConfirmationAffirmed |};
    {| handler_name := "ConfirmationDisaffirmed (built-in)";
       handler_canHandle := isConfirmationDisaffirmed;
       handler_handle := Builtin ConfirmationDisaffirmed |} ].

(** The custom handlers of the props, numbered from [n]. *)
Fixpoint customInputHandlers (n : nat) (cs : list CustomHandler)
  : list ControlInputHandler :=
  match cs with
  | [] => []
  | c :: rest =>
      {| handler_name := custom_name c;
         handler_canHandle :=
           (fun input => s <- this_state ;; ret (custom_canHandle c s input));
         handler_handle := Custom n |}
      :: customInputHandlers (S n) rest
  end.

(** The handlers whose predicate returns true, in list order. *)
Fixpoint matchingHandlers (hs : list ControlInputHandler) (input : ControlInput)
  : M (list ControlInputHandler) :=
  match hs with
  | [] => ret []
  | h :: rest =>
      b <- handler_canHandle h input ;;
      ms <- matchingHandlers rest input ;;
      ret (if b then h :: ms else ms)
  end.

(** Modelled from the spec: [utils/ControlUtils.evaluateInputHandlers]
    is not in src/.  "Within one control's own handler list, if multiple
    predicates match, precedence is: built-in handlers before custom
    handlers, then registration order"; the chosen handler is recorded
    for [handle].  (The diagnostic the spec mentions is a log line and
    is left out.) *)
Definition evaluateInputHandlers (input : ControlInput) : M bool :=
  p <- this_props ;;
  ms <- matchingHandlers
          (standardInputHandlers ++ customInputHandlers 0 (customHandlingFuncs p))
          input ;;
  match ms with
  | [] => ret false
  | h :: _ => modify (with_handleFunc (Some (handler_handle h))) ;; ret true
  end.

Definition canHandle (input : ControlInput) : M bool :=
  evaluateInputHandlers input.

Definition call_custom (c : CustomHandler) (input : ControlInput) : M unit :=
  fun t =>
    match custom_handle c input (state (this t)) (acts (resultBuilder t)) with
    | (o, s', a') => (o, with_acts (fun _ => a') (with_state (fun _ => s') t))
    end.

Definition call_builtin (h : BuiltinHandler) (input : ControlInput) : M unit :=
  match h with
  | SetWithValue => handleSetWithValue input
  | ChangeWithValue => handleChangeWithValue input
  | SetWithoutValue => handleSetWithoutValue input
  | ChangeWithoutValue => handleChangeWithoutValue input
  | BareValue => handleBareValue input
  | ConfirmationAffirmed => handleConfirmationAffirmed input
  | ConfirmationDisaffirmed => handleConfirmationDisaffirmed input
  end.

(** [this.handleFunc(input, resultBuilder)] *)
Definition call_handleFunc (f : HandleFunc) (input : ControlInput) : M unit :=
  match f with
  | Builtin h => call_builtin h input
  | Custom n =>
      p <- this_props ;;
      match nth_error (customHandlingFuncs p) n with
      | Some c => call_custom c input
      | None => throw (TypeError "this.handleFunc is not a function")
      end
  end.

(** The initiative step: [canTakeInitiative], then [takeInitiative] when
    it returned true. *)
Definition initiativeStep (input : ControlInput) : M unit :=
  b <- canTakeInitiative input ;;
  if Bool.eqb b true then takeInitiative input else ret tt.

Definition handle (input : ControlInput) : M unit :=
  f <- gets (fun t => handleFunc (this t)) ;;
  match f with
  | None =>
      i <- InputUtil.intentOf input ;;
      throw (Error (name i ++ " can not be handled by ValueControl.")%string)
  | Some h =>
      call_handleFunc h input ;;
      has <- hasInitiativeAct ;;
      if negb (Bool.eqb has true) then initiativeStep input else ret tt
  end.


(** ** Properties of methods *)

(** The re-elicitation act [askElicitationQuestion] appends for an
    action; none for an unknown action. *)
Definition reelicitation (p : ValueControlProps) (s : ValueControlState)
    (input : ControlInput) (elicitationAction : string) : option SystemAct :=
  if String.eqb elicitationAction Strings.Action_Set then
    Some (RequestValueAct (id p))
  else if String.eqb elicitationAction Strings.Action_Change then
    Some (RequestChangedValueAct (id p) (value s) (render p (value s) input))
  else None.

(** [t'] differs from [t] at most in [handleFunc]. *)
Definition frame (t t' : Turn) : Prop :=
  props (this t') = props (this t)
  /\ state (this t') = state (this t)
  /\ initiativeFunc (this t') = initiativeFunc (this t)
  /\ resultBuilder t' = resultBuilder t.

(** A method that reads only the props and the state and writes only
    [handleFunc]: run from two turns with the same props and state it
    has the same outcome, and it either leaves [handleFunc] alone in
    both or leaves the same [handleFunc] in both. *)
Definition selects_only {A} (m : M A) : Prop :=
  forall t1 t2,
    props (this t1) = props (this t2) ->
    state (this t1) = state (this t2) ->
    fst (m t1) = fst (m t2)
    /\ frame t1 (snd (m t1))
    /\ frame t2 (snd (m t2))
    /\ ((handleFunc (this (snd (m t1))) = handleFunc (this t1)
         /\ handleFunc (this (snd (m t2))) = handleFunc (this t2))
        \/ handleFunc (this (snd (m t1))) = handleFunc (this (snd (m t2)))).

(** The three handlers that take a value from the input. *)
Definition takes_value (h : BuiltinHandler) : bool :=
  match h with
  | SetWithValue | ChangeWithValue | BareValue => true
  | _ => false
  end.

(** A method that leaves the turn as it was. *)
Definition reads_only {A} (m : M A) : Prop :=
  forall t, snd (m t) = t.

(** A predicate that leaves the turn as it was unless it returns true. *)
Definition writes_only_when_true (m : M bool) : Prop :=
  forall t, snd (m t) = t \/ fst (m t) = Returned true.

(** The number of initiative acts in a list of acts. *)
Definition count_initiative (l : list SystemAct) : nat :=
  length (filter takesInitiative l).

(** A method that only appends to the acts of the turn, and appends at
    most [n] initiative acts. *)
Definition appends {A} (n : nat) (m : M A) : Prop :=
  forall t, exists new,
    acts (resultBuilder (snd (m t))) = acts (resultBuilder t) ++ new
    /\ count_initiative new <= n.

(** ** Scenarios of test/scenarios.spec.ts, run on the model *)

Module Scenarios.
(** The PlayerName control of SingleSelectorManager. *)
Definition playerName_props : Raw.ValueControlProps :=
  {| Raw.id := "playerName"; Raw.slotType := "CUSTOM.name";
     Raw.validation := None; Raw.required := None;
     Raw.confirmationRequired := None;
     Raw.targets := Some ["name"];
     Raw.actions_set := None; Raw.actions_change := None;
     Raw.customHandlingFuncs := None; Raw.valueRenderer := None |}.

Definition turn_of (c : Outcome ValueControl) : option Turn :=
  match c with
  | Returned v => Some {| this := v; resultBuilder := new_ControlResultBuilder |}
  | Threw _ => None
  end.

(** [ValueControlIntent.of(slotType, {action, target, [slotType]: value})] *)
Definition valueIntent (slot : string) (a t : option string) (v : string)
  : ControlInput :=
  {| request := IntentRequest
       {| name := ValueControlIntent_intentName slot;
          feedback := None; action := a; target := t;
          valueType := Some slot;
          values := [ {| slotValue := Some v; isEntityResolutionMatch := true |} ] |} |}.

Definition set_Mike : ControlInput :=
  valueIntent "CUSTOM.name" (Some Strings.Action_Set) (Some "name") "Mike".

Definition yes : ControlInput :=
  {| request := IntentRequest
       {| name := "AMAZON.YesIntent"; feedback := None; action := None;
          target := None; valueType := None; values := [] |} |}.

(** canHandle, then handle, on a fresh control. *)
Definition canHandle_then_handle (input : ControlInput) : M bool :=
  b <- canHandle input ;; handle input ;; ret b.

Definition run {A} (m : M A) (p : Raw.ValueControlProps)
  : option (Outcome A * Turn) :=
  option_map m (turn_of (new_ValueControl p)).

(** The playerCount control of TwoSelectorManager. *)
Definition playerCount_props : Raw.ValueControlProps :=
  {| Raw.id := "playerCount"; Raw.slotType := "AMAZON.NUMBER";
     Raw.validation := None; Raw.required := None;
     Raw.confirmationRequired := None;
     Raw.targets := Some ["playerCount"];
     Raw.actions_set := None; Raw.actions_change := None;
     Raw.customHandlingFuncs := None; Raw.valueRenderer := None |}.

(** [GeneralControlIntent.of({action, target})] *)
Definition generalIntent (a t : option string) : ControlInput :=
  {| request := IntentRequest
       {| name := GeneralControlIntent_name;
          feedback := None; action := a; target := t;
          valueType := None; values := [] |} |}.

(** One turn on the control: [canHandle], [handle] when it returned
    true, on a new result builder; the acts of the turn are returned. *)
Definition turn (input : ControlInput) : M (list SystemAct) :=
  modify (with_acts (fun _ => [])) ;;
  b <- canHandle input ;;
  (if b then handle input else ret tt) ;;
  gets (fun t => acts (resultBuilder t)).

(** The three turns of the 'multi-step set' test. *)
Definition multi_step_set : M (list SystemAct * list SystemAct * list SystemAct) :=
  r1 <- turn (valueIntent "AMAZON.NUMBER" (Some Strings.Action_Set)
                (Some "playerCount") "3") ;;
  r2 <- turn (generalIntent (Some Strings.Action_Change) (Some "playerCount")) ;;
  r3 <- turn (valueIntent "AMAZON.NUMBER" None None "4") ;;
  ret (r1, r2, r3).
End Scenarios.

(** A name control that requires confirmation and accepts only the
    name Mike, and the turns the witnesses below run it on. *)
Module Invalid.
Definition not_Mike : ValidationFailure :=
  {| reasonCode := Some "NotMike"; renderedReason := None |}.

Definition only_Mike : StateValidationFunction :=
  fun s _ =>
    match value s with
    | Some v => if String.eqb v "Mike" then VTrue else VFailure not_Mike
    | None => VFailure not_Mike
    end.

Definition picky_props : Raw.ValueControlProps :=
  {| Raw.id := "playerName"; Raw.slotType := "CUSTOM.name";
     Raw.validation := Some [only_Mike]; Raw.required := None;
     Raw.confirmationRequired := Some (fun _ => true);
     Raw.targets := Some ["name"];
     Raw.actions_set := None; Raw.actions_change := None;
     Raw.customHandlingFuncs := None; Raw.valueRenderer := None |}.

Definition set_Zed : ControlInput :=
  Scenarios.valueIntent "CUSTOM.name" (Some Strings.Action_Set) (Some "name") "Zed".

Definition launch : ControlInput := {| request := LaunchRequest |}.

(** The control at the start of the turn after "set name to Zed" was
    rejected: the state is the persisted one, the tree is rebuilt. *)
Definition Zed_state : ValueControlState :=
  {| value := Some "Zed"; erMatch := Some true;
     elicitationAction := Some Strings.Action_Set;
     isValueConfirmed := false; previousValue := None;
     lastInitiative := {| actName := None |} |}.

Definition Zed_turn : Turn :=
  {| this := {| props := mergeWithDefaultProps picky_props;
                state := Zed_state;
                handleFunc := None; initiativeFunc := None |};
     resultBuilder := new_ControlResultBuilder |}.

(** The same control with three validation functions, of which the
    second and the third reject Zed. *)
Definition any_value : StateValidationFunction := fun _ _ => VTrue.

Definition too_late : ValidationFailure :=
  {| reasonCode := Some "TooLate"; renderedReason := Some "it is too late" |}.

Definition never : StateValidationFunction := fun _ _ => VFailure too_late.

Definition three_checks_turn : Turn :=
  {| this := {| props := mergeWithDefaultProps
                  {| Raw.id := "playerName"; Raw.slotType := "CUSTOM.name";
                     Raw.validation := Some [any_value; only_Mike; never];
                     Raw.required := None;
                     Raw.confirmationRequired := None;
                     Raw.targets := Some ["name"];
                     Raw.actions_set := None; Raw.actions_change := None;
                     Raw.customHandlingFuncs := None;
                     Raw.valueRenderer := None |};
                state := Zed_state;
                handleFunc := None; initiativeFunc := None |};
     resultBuilder := new_ControlResultBuilder |}.

(** [Zed_turn] before "set name to Zed" is handled, the handler
    already selected. *)
Definition selected_turn : Turn :=
  {| this := {| props := mergeWithDefaultProps picky_props;
                state := new_ValueControlState;
                handleFunc := Some (Builtin SetWithValue);
                initiativeFunc := None |};
     resultBuilder := new_ControlResultBuilder |}.
End Invalid.

(** ** ValueControl: rendering *)

(** [ValueControlPromptProps], for [props.prompts] and [props.reprompts].
    Modelled from the spec: [Control.evaluatePromptProp] is not in src/;
    a prompt prop is a string, a list or a function of the act and the
    input, and what is added to the response is its value at the act and
    the input, so each prop is taken as that function. *)
Module Prompts.
Record ValueControlPromptProps : Type := {
  valueSet : SystemAct -> ControlInput -> string;
  valueChanged : SystemAct -> ControlInput -> string;
  invalidValue : SystemAct -> ControlInput -> string;
  requestValue : SystemAct -> ControlInput -> string;
  requestChangedValue : SystemAct -> ControlInput -> string;
  confirmValue : SystemAct -> ControlInput -> string;
  valueDisconfirmed : SystemAct -> ControlInput -> string;
  valueConfirmed : SystemAct -> ControlInput -> string
}.
End Prompts.

(** A slot of an [Intent] of ask-sdk-model, as
    [generateSlotElicitationDetails] builds it. *)
Record Slot : Type := {
  slot_name : string;
  slot_value : string;
  slot_confirmationStatus : string
}.

(** The [Intent] of ask-sdk-model.  [slots] is a JavaScript object: an
    ordered list of keys with their values, no key twice. *)
Record ElicitedIntent : Type := {
  elicited_name : string;
  elicited_slots : list (string * Slot);
  elicited_confirmationStatus : string
}.

(** One property of an object literal: a key that is already there
    keeps its place and takes the new value, a new key goes last. *)
Fixpoint obj_set {V : Type} (k : string) (v : V) (o : list (string * V))
  : list (string * V) :=
  match o with
  | [] => [(k, v)]
  | (k', v') :: rest =>
      if String.eqb k' k then (k', v) :: rest else (k', v') :: obj_set k v rest
  end.

Fixpoint obj_get {V : Type} (k : string) (o : list (string * V)) : option V :=
  match o with
  | [] => None
  | (k', v') :: rest => if String.eqb k' k then Some v' else obj_get k rest
  end.

Definition empty_slot (n : string) : Slot :=
  {| slot_name := n; slot_value := ""; slot_confirmationStatus := "NONE" |}.

(** [ValueControl.generateSlotElicitationDetails(slotType)]: the intent
    and the name of the slot to elicit.  The object literal lists the
    computed key [slotType] first, then the six fixed keys. *)
Definition generateSlotElicitationDetails (slot : string) : ElicitedIntent * string :=
  ({| elicited_name := ValueControlIntent_intentName slot;
      elicited_slots :=
        obj_set "assign" (empty_slot "assign")
          (obj_set "tail" (empty_slot "tail")
             (obj_set "head" (empty_slot "head")
                (obj_set "target" (empty_slot "target")
                   (obj_set "action" (empty_slot "action")
                      (obj_set "feedback" (empty_slot "feedback")
                         (obj_set slot (empty_slot slot) []))))));
      elicited_confirmationStatus := "NONE" |},
   slot).

(** Modelled from the spec: [responseGeneration/ControlResponseBuilder]
    is not in src/.  "Output (produced for rendering collaborator):
    ordered prompt fragments, ordered reprompt fragments, zero or more
    platform directives (e.g., 'elicit slot S for intent I')". *)
Record ControlResponseBuilder : Type := {
  promptFragments : list string;
  repromptFragments : list string;
  elicitSlotDirectives : list (string * ElicitedIntent)
}.

Definition addPromptFragment (f : string) (b : ControlResponseBuilder) :=
  {| promptFragments := promptFragments b ++ [f];
     repromptFragments := repromptFragments b;
     elicitSlotDirectives := elicitSlotDirectives b |}.

Definition addRepromptFragment (f : string) (b : ControlResponseBuilder) :=
  {| promptFragments := promptFragments b;
     repromptFragments := repromptFragments b ++ [f];
     elicitSlotDirectives := elicitSlotDirectives b |}.

Definition addElicitSlotDirective (slotName : string) (i : ElicitedIntent)
    (b : ControlResponseBuilder) :=
  {| promptFragments := promptFragments b;
     repromptFragments := repromptFragments b;
     elicitSlotDirectives := elicitSlotDirectives b ++ [(slotName, i)] |}.

Definition isRequestValueAct (act : SystemAct) : bool :=
  match act with RequestValueAct _ => true | _ => false end.

Definition isRequestChangedValueAct (act : SystemAct) : bool :=
  match act with RequestChangedValueAct _ _ _ => true | _ => false end.

(** [renderAct(act, input, builder)].  The props are the control's;
    [prompts] and [reprompts] are [props.prompts] and [props.reprompts].
    The final [else] of the source, for an act of no class of this
    control, has no act to run on here. *)
Definition renderAct (p : ValueControlProps)
    (prompts reprompts : Prompts.ValueControlPromptProps)
    (act : SystemAct) (input : ControlInput) (builder : ControlResponseBuilder)
  : ControlResponseBuilder :=
  let say prompt reprompt b :=
    addRepromptFragment (reprompt act input) (addPromptFragment (prompt act input) b) in
  match act with
  | InvalidValueAct _ _ _ _ _ =>
      say (Prompts.invalidValue prompts) (Prompts.invalidValue reprompts) builder
  | ValueSetAct _ _ _ =>
      say (Prompts.valueSet prompts) (Prompts.valueSet reprompts) builder
  | ValueChangedAct _ _ _ _ _ =>
      say (Prompts.valueChanged prompts) (Prompts.valueChanged reprompts) builder
  | RequestValueAct _ | RequestChangedValueAct _ _ _ =>
      let prompt :=
        if isRequestValueAct act
        then Prompts.requestValue prompts
        else Prompts.requestChangedValue prompts in
      let reprompt :=
        if isRequestChangedValueAct act
        then Prompts.requestValue reprompts
        else Prompts.requestChangedValue reprompts in
      let details := generateSlotElicitationDetails (slotType p) in
      addElicitSlotDirective (snd details) (fst details) (say prompt reprompt builder)
  | ConfirmValueAct _ _ _ =>
      say (Prompts.confirmValue prompts) (Prompts.confirmValue reprompts) builder
  | ValueConfirmedAct _ _ _ =>
      say (Prompts.valueConfirmed prompts) (Prompts.valueConfirmed reprompts) builder
  | ValueDisconfirmedAct _ _ _ =>
      say (Prompts.valueDisconfirmed prompts) (Prompts.valueDisconfirmed reprompts) builder
  end.

(** ** Properties of turns *)

(** The input predicate of a built-in handler, as
    [standardInputHandlers] pairs them. *)
Definition builtin_canHandle (h : BuiltinHandler) : ControlInput -> M bool :=
  match h with
  | SetWithValue => isSetWithValue
  | ChangeWithValue => isChangeWithValue
  | SetWithoutValue => isSetWithoutValue
  | ChangeWithoutValue => isChangeWithoutValue
  | BareValue => isBareValue
  | ConfirmationAffirmed => isConfirmationAffirmed
  | ConfirmationDisaffirmed => isConfirmationDisaffirmed
  end.

(** [elicitationAction] is unset, set or change. *)
Definition known_action (s : ValueControlState) : bool :=
  match elicitationAction s with
  | None => true
  | Some a => String.eqb a Strings.Action_Set || String.eqb a Strings.Action_Change
  end.

(** The outcomes of a turn that follows the protocol: a normal return,
    or the error of a change without a previous value. *)
Definition returned_or_no_previous_value (o : Outcome unit) : Prop :=
  o = Returned tt \/ o = Threw (Error ValueChangedAct_message).

(** No initiative act but, at most, the last act. *)
Fixpoint initiative_only_last (l : list SystemAct) : bool :=
  match l with
  | [] => true
  | a :: rest =>
      match rest with
      | [] => true
      | _ => negb (takesInitiative a) && initiative_only_last rest
      end
  end.

(** The two lists of action ids share no id. *)
Definition disjoint_actions (p : ValueControlProps) : Prop :=
  forall a, includes (actions_set p) a = true -> includes (actions_change p) a = false.


(** The acts of a result rendered in order by the control. *)
Definition renderActs (p : ValueControlProps)
    (prompts reprompts : Prompts.ValueControlPromptProps)
    (l : list SystemAct) (input : ControlInput) (b : ControlResponseBuilder)
  : ControlResponseBuilder :=
  fold_left (fun b act => renderAct p prompts reprompts act input b) l b.

(** The state [setValue(v, er)] leaves. *)
Definition after_setValue (v : string) (er : bool) (s : ValueControlState)
  : ValueControlState :=
  set_isValueConfirmed false
    (set_erMatch (Some er) (set_value (Some v) (set_previousValue (value s) s))).

(** The elicitation action a value handler validates under. *)
Definition attempted_action (h : BuiltinHandler) (s : ValueControlState) : string :=
  match h with
  | ChangeWithValue => Strings.Action_Change
  | BareValue =>
      match elicitationAction s with Some a => a | None => Strings.Action_Set end
  | _ => Strings.Action_Set
  end.


(** Turns of the playerName and playerCount controls of the scenarios,
    at the point where [handle] is called. *)
Module Turns.
Definition control_of (p : Raw.ValueControlProps) (s : ValueControlState)
    (h : option HandleFunc) : Turn :=
  {| this := {| props := mergeWithDefaultProps p; state := s;
                handleFunc := h; initiativeFunc := None |};
     resultBuilder := new_ControlResultBuilder |}.

(** "change name to Mike", said to a control that holds no name. *)
Definition change_Mike : ControlInput :=
  Scenarios.valueIntent "CUSTOM.name" (Some Strings.Action_Change) (Some "name") "Mike".

Definition empty_change_turn : Turn :=
  control_of Scenarios.playerName_props new_ValueControlState
    (Some (Builtin ChangeWithValue)).


(** The playerCount control holding 3 after it asked for a changed
    value, and the bare answer 4. *)
Definition count_3_change_pending : ValueControlState :=
  {| value := Some "3"; erMatch := Some true;
     elicitationAction := Some Strings.Action_Change;
     isValueConfirmed := false; previousValue := None;
     lastInitiative := {| actName := None |} |}.

Definition bare_4 : ControlInput :=
  Scenarios.valueIntent "AMAZON.NUMBER" None None "4".

Definition bare_turn : Turn :=
  control_of Scenarios.playerCount_props count_3_change_pending
    (Some (Builtin BareValue)).

(** The picky name control of [Invalid] after it asked to confirm Zed. *)
Definition Zed_asked : ValueControlState :=
  {| value := Some "Zed"; erMatch := Some true;
     elicitationAction := Some Strings.Action_Set;
     isValueConfirmed := false; previousValue := None;
     lastInitiative := {| actName := Some ConfirmValueAct_name |} |}.

Definition no : ControlInput :=
  {| request := IntentRequest
       {| name := "AMAZON.NoIntent"; feedback := None; action := None;
          target := None; valueType := None; values := [] |} |}.

Definition yes_turn : Turn :=
  control_of Invalid.picky_props Zed_asked (Some (Builtin ConfirmationAffirmed)).

Definition no_turn : Turn :=
  control_of Invalid.picky_props Zed_asked (Some (Builtin ConfirmationDisaffirmed)).

(** A fresh control, no handler selected. *)
Definition fresh (p : Raw.ValueControlProps) : Turn :=
  control_of p new_ValueControlState None.
End Turns.

(** The outcomes of a built-in handler: as above, or the TypeError of
    an input that carries no value. *)
Definition no_other_error (o : Outcome unit) : Prop :=
  o = Returned tt
  \/ o = Threw (Error ValueChangedAct_message)
  \/ exists m, o = Threw (TypeError m).

(** A method that only appends to the acts of the turn, an initiative
    act at most as the last one. *)
Definition appends_initiative_last {A} (m : M A) : Prop :=
  forall t, exists new,
    acts (resultBuilder (snd (m t))) = acts (resultBuilder t) ++ new
    /\ initiative_only_last new = true.

(** The action slot of the input. *)
Definition intent_action (input : ControlInput) : option string :=
  match request input with
  | IntentRequest i => action i
  | _ => None
  end.

(** What the predicate of a built-in handler asks of the intent name
    and of the action slot. *)
Definition asks_of_input (h : BuiltinHandler) (p : ValueControlProps)
    (input : ControlInput) : bool :=
  let value_intent :=
    InputUtil.isIntent input (ValueControlIntent_intentName (slotType p)) in
  let general_intent := InputUtil.isIntent input GeneralControlIntent_name in
  match h with
  | SetWithValue =>
      value_intent && InputUtil.actionIsMatch (intent_action input) (actions_set p)
  | ChangeWithValue =>
      value_intent && InputUtil.actionIsMatch (intent_action input) (actions_change p)
  | SetWithoutValue =>
      general_intent && InputUtil.actionIsMatch (intent_action input) (actions_set p)
  | ChangeWithoutValue =>
      general_intent && InputUtil.actionIsMatch (intent_action input) (actions_change p)
  | BareValue => value_intent && InputUtil.actionIsUndefined (intent_action input)
  | ConfirmationAffirmed => InputUtil.isBareYes input
  | ConfirmationDisaffirmed => InputUtil.isBareNo input
  end.

(** The acts that make [renderAct] add an elicit-slot directive. *)
Definition isRequest (act : SystemAct) : bool :=
  isRequestValueAct act || isRequestChangedValueAct act.

(** The six fixed slot names of [generateSlotElicitationDetails]. *)
Definition fixed_slot_names : list string :=
  ["feedback"; "action"; "target"; "head"; "tail"; "assign"].

(** Prompt props that name the prop they come from, to tell them apart. *)
Module Named.
Definition props_named (kind : string) : Prompts.ValueControlPromptProps :=
  let say (n : string) := fun (_ : SystemAct) (_ : ControlInput) =>
                            (kind ++ "." ++ n)%string in
  {| Prompts.valueSet := say "valueSet";
     Prompts.valueChanged := say "valueChanged";
     Prompts.invalidValue := say "invalidValue";
     Prompts.requestValue := say "requestValue";
     Prompts.requestChangedValue := say "requestChangedValue";
     Prompts.confirmValue := say "confirmValue";
     Prompts.valueDisconfirmed := say "valueDisconfirmed";
     Prompts.valueConfirmed := say "valueConfirmed" |}.

Definition empty_response : ControlResponseBuilder :=
  {| promptFragments := []; repromptFragments := []; elicitSlotDirectives := [] |}.
End Named.

(** * Theorems *)

(** 'simple set-value input should be processed.': the value is Mike and
    the result holds exactly one act, a ValueSetAct. *)
Example simple_set_value_input :
  option_map (fun r => (fst r, value (state (this (snd r))), acts (resultBuilder (snd r))))
    (Scenarios.run (Scenarios.canHandle_then_handle Scenarios.set_Mike)
       Scenarios.playerName_props)
  = Some (Returned true, Some "Mike",
          [ValueSetAct "playerName" (Some "Mike") (Some "Mike")]).
Proof. vm_compute. reflexivity. Qed.

(** 'multi-step set': the count is set, a change is asked for, and the
    bare value that follows is taken as the changed value. *)
Example multi_step_set_acts :
  option_map fst (Scenarios.run Scenarios.multi_step_set Scenarios.playerCount_props)
  = Some (Returned
            ([ValueSetAct "playerCount" (Some "3") (Some "3")],
             [RequestChangedValueAct "playerCount" (Some "3") (Some "3")],
             [ValueChangedAct "playerCount" "3" "3" (Some "4") (Some "4")])).
Proof. vm_compute. reflexivity. Qed.

(** A bare yes is taken as the confirmation only after the control asked
    for it. *)
Example yes_before_and_after_ConfirmValueAct :
  let t := Invalid.Zed_turn in
  fst (canHandle Scenarios.yes t) = Returned false
  /\ fst (canHandle Scenarios.yes (snd (initiativeStep Invalid.launch t)))
     = Returned true.
Proof. split; vm_compute; reflexivity. Qed.

(** ** Reasoning about methods *)

Ltac unfold_monad :=
  unfold orM, set_handleFunc, set_initiativeFunc, addAct, hasInitiativeAct,
    this_state, this_props, okIf, falseIfGuardFailed,
    bind, try_catch, ret, throw, gets, modify in *.

Lemma Turn_eq (t t' : Turn) :
  props (this t) = props (this t') ->
  state (this t) = state (this t') ->
  handleFunc (this t) = handleFunc (this t') ->
  initiativeFunc (this t) = initiativeFunc (this t') ->
  resultBuilder t = resultBuilder t' ->
  t = t'.
Proof.
  destruct t as [[p s h i] b], t' as [[p' s' h' i'] b']; simpl.
  intros; subst; reflexivity.
Qed.

(** ** setValue *)

(** C4. After [setValue(value, erMatch)] the confirmation flag is false,
    [previousValue] is the value held before the call, [value] is the
    new value and [erMatch] is the given flag ([true] when the argument
    is omitted); the call returns normally and touches nothing else. *)
Theorem setValue_postcondition (v : string) (er : option bool) (t : Turn) :
  let t' := snd (setValue v er t) in
  let s := state (this t) in
  let s' := state (this t') in
  fst (setValue v er t) = Returned tt
  /\ isValueConfirmed s' = false
  /\ previousValue s' = value s
  /\ value s' = Some v
  /\ erMatch s' = Some (match er with Some b => b | None => true end)
  /\ elicitationAction s' = elicitationAction s
  /\ lastInitiative s' = lastInitiative s
  /\ handleFunc (this t') = handleFunc (this t)
  /\ initiativeFunc (this t') = initiativeFunc (this t)
  /\ resultBuilder t' = resultBuilder t.
Proof.
  unfold setValue; unfold_monad; simpl.
  repeat split; reflexivity.
Qed.

(** ** The constructor *)

(** C10. The constructor throws exactly when the slot type of the props
    is AMAZON.SearchQuery; otherwise it returns a control whose state has
    [lastInitiative = {}] and [isValueConfirmed = false]. *)
Theorem constructor_SearchQuery (p : Raw.ValueControlProps) :
  match new_ValueControl p with
  | Threw e =>
      Raw.slotType p = "AMAZON.SearchQuery" /\ e = Error SEARCH_QUERY_message
  | Returned c =>
      Raw.slotType p <> "AMAZON.SearchQuery"
      /\ lastInitiative (state c) = {| actName := None |}
      /\ isValueConfirmed (state c) = false
      /\ props c = mergeWithDefaultProps p
  end.
Proof.
  unfold new_ValueControl, AmazonBuiltInSlotType.SEARCH_QUERY.
  destruct (String.eqb_spec (Raw.slotType p) "AMAZON.SearchQuery") as [E | E].
  - split; [exact E | reflexivity].
  - repeat split; auto.
Qed.

(** ** Confirmation predicates *)


Lemma isConfirmationAffirmed_eq (input : ControlInput) (t : Turn) :
  isConfirmationAffirmed input t =
  if InputUtil.isBareYes input && actName_is_ConfirmValueAct (state (this t))
  then (Returned true, with_handleFunc (Some (Builtin ConfirmationAffirmed)) t)
  else (Returned false, t).
Proof.
  unfold isConfirmationAffirmed; unfold_monad.
  destruct (InputUtil.isBareYes input); simpl; [| reflexivity].
  destruct (actName_is_ConfirmValueAct (state (this t))); reflexivity.
Qed.

Lemma isConfirmationDisaffirmed_eq (input : ControlInput) (t : Turn) :
  isConfirmationDisaffirmed input t =
  if InputUtil.isBareNo input && actName_is_ConfirmValueAct (state (this t))
  then (Returned true, with_handleFunc (Some (Builtin ConfirmationDisaffirmed)) t)
  else (Returned false, t).
Proof.
  unfold isConfirmationDisaffirmed; unfold_monad.
  destruct (InputUtil.isBareNo input); simpl; [| reflexivity].
  destruct (actName_is_ConfirmValueAct (state (this t))); reflexivity.
Qed.


(** ** The initiative decision *)

(** The decision of [canTakeInitiative], as one case analysis. *)
Lemma canTakeInitiative_eq (input : ControlInput) (t : Turn) :
  let s := state (this t) in
  let p := props (this t) in
  canTakeInitiative input t =
  if isDefined (value s) && negb (isValueConfirmed s) && confirmationRequired p input
  then (Returned true, with_initiativeFunc (Some ConfirmValue) t)
  else if isDefined (value s)
          && negb (isVTrue (evaluateValidationProp (validation p) s input))
  then (Returned true, with_initiativeFunc (Some FixInvalidValue) t)
  else if negb (isDefined (value s)) && required p input
  then (Returned true, with_initiativeFunc (Some ElicitValue) t)
  else (Returned false, t).
Proof.
  destruct t as [[p s h i] b]; destruct s as [v e ea c pv li].
  unfold canTakeInitiative, wantsToConfirmValue, wantsToFixInvalidValue,
    wantsToElicitValue, evaluateBooleanProp; unfold_monad; simpl.
  destruct v as [v |]; simpl.
  - destruct c; simpl; destruct (confirmationRequired p input); simpl;
      try reflexivity;
      destruct (isVTrue _); reflexivity.
  - destruct (required p input); reflexivity.
Qed.

(** What each chosen initiative appends when [takeInitiative] runs it. *)
Lemma takeInitiative_confirmValue (input : ControlInput) (t : Turn) :
  initiativeFunc (this t) = Some ConfirmValue ->
  let s := state (this t) in
  let p := props (this t) in
  takeInitiative input t =
  (Returned tt,
   with_acts (fun l => l ++ [ConfirmValueAct (id p) (value s) (render p (value s) input)])
     (with_state (set_lastInitiative_actName (Some ConfirmValueAct_name)) t)).
Proof.
  intros H; unfold takeInitiative; unfold_monad; rewrite H; reflexivity.
Qed.

Lemma takeInitiative_elicitValue (input : ControlInput) (t : Turn) :
  initiativeFunc (this t) = Some ElicitValue ->
  takeInitiative input t =
  (Returned tt,
   with_acts (fun l => l ++ [RequestValueAct (id (props (this t)))])
     (with_state (set_elicitationAction (Some Strings.Action_Set)) t)).
Proof.
  intros H; unfold takeInitiative; unfold_monad; rewrite H; reflexivity.
Qed.


(** C1. [canTakeInitiative] decides in a fixed order, the first true
    condition winning: (a) a value is present, it is not confirmed and
    confirmation is required: the initiative is [confirmValue]; (b)
    otherwise, a value is present and fails validation: the initiative
    is [fixInvalidValue], the re-elicitation as a change; (c) otherwise,
    no value is present and the control is required: the initiative is
    [elicitValue], the elicitation as a set; when none holds it returns
    false and selects nothing. *)
Theorem canTakeInitiative_order (input : ControlInput) (t : Turn) :
  let s := state (this t) in
  let p := props (this t) in
  let a := isDefined (value s) && negb (isValueConfirmed s)
           && confirmationRequired p input in
  let b := isDefined (value s)
           && negb (isVTrue (evaluateValidationProp (validation p) s input)) in
  let c := negb (isDefined (value s)) && required p input in
  canTakeInitiative input t =
    (if a then (Returned true, with_initiativeFunc (Some ConfirmValue) t)
     else if b then (Returned true, with_initiativeFunc (Some FixInvalidValue) t)
     else if c then (Returned true, with_initiativeFunc (Some ElicitValue) t)
     else (Returned false, t))
  /\ initiativeStep input t =
    (if a then confirmValue input (with_initiativeFunc (Some ConfirmValue) t)
     else if b then
       validateAndAddActs input Strings.Action_Change
         (with_initiativeFunc (Some FixInvalidValue) t)
     else if c then
       askElicitationQuestion input Strings.Action_Set
         (with_initiativeFunc (Some ElicitValue) t)
     else (Returned tt, t)).
Proof.
  intros s p a b c.
  split; [apply canTakeInitiative_eq |].
  unfold initiativeStep, bind. rewrite canTakeInitiative_eq.
  fold s p a b c.
  destruct a; [reflexivity |].
  destruct b; [reflexivity |].
  destruct c; reflexivity.
Qed.

(** ** Validation and its acts *)


Lemma validateAndAddActs_eq (input : ControlInput) (a : string) (t : Turn) :
  let t1 := with_state (set_elicitationAction (Some a)) t in
  let s := state (this t1) in
  let p := props (this t) in
  validateAndAddActs input a t =
  match evaluateValidationProp (validation p) s input with
  | VTrue =>
      if String.eqb a Strings.Action_Change then
        match previousValue s with
        | Some pv =>
            (Returned tt,
             with_acts (fun l => l ++ [ValueChangedAct (id p) pv (valueRenderer p pv input)
                                         (value s) (render p (value s) input)]) t1)
        | None => (Threw (Error ValueChangedAct_message), t1)
        end
      else
        (Returned tt,
         with_acts (fun l => l ++ [ValueSetAct (id p) (value s) (render p (value s) input)]) t1)
  | VFailure f =>
      let invalid := InvalidValueAct (id p) (value s) (render p (value s) input)
                       (reasonCode f) (renderedReason f) in
      match reelicitation p s input a with
      | Some q => (Returned tt, with_acts (fun l => l ++ [invalid; q]) t1)
      | None =>
          (Threw (Error ("Unhandled. Unknown elicitationAction: " ++ a)%string),
           with_acts (fun l => l ++ [invalid]) t1)
      end
  end.
Proof.
  destruct t as [[p s h i] [l]]; destruct s as [v e ea c pv li].
  unfold validateAndAddActs, askElicitationQuestion, reelicitation; unfold_monad; simpl.
  destruct (evaluateValidationProp _ _ _) as [| f]; simpl.
  - destruct (String.eqb a Strings.Action_Change); [destruct pv |]; reflexivity.
  - destruct (String.eqb a Strings.Action_Set); simpl.
    + unfold with_acts; simpl. rewrite <- app_assoc. reflexivity.
    + destruct (String.eqb a Strings.Action_Change); simpl.
      * unfold with_acts; simpl. rewrite <- app_assoc. reflexivity.
      * reflexivity.
Qed.

(** C5. [validateAndAddActs] with the action "change": when validation
    passes and [state.previousValue] is undefined it throws an Error and
    appends nothing; when validation passes and [previousValue] is
    defined it appends exactly one ValueChangedAct carrying it; when
    validation fails it appends no ValueChangedAct.  So a
    ValueChangedAct is appended only when [previousValue] is defined. *)
Theorem ValueChangedAct_needs_previousValue (input : ControlInput) (t : Turn) :
  let r := validateAndAddActs input Strings.Action_Change t in
  let p := props (this t) in
  let s := set_elicitationAction (Some Strings.Action_Change) (state (this t)) in
  exists new,
    acts (resultBuilder (snd r)) = acts (resultBuilder t) ++ new
    /\ match evaluateValidationProp (validation p) s input,
             previousValue (state (this t)) with
       | VTrue, None =>
           fst r = Threw (Error ValueChangedAct_message) /\ new = []
       | VTrue, Some pv =>
           fst r = Returned tt
           /\ new = [ValueChangedAct (id p) pv (valueRenderer p pv input)
                       (value s) (render p (value s) input)]
       | VFailure _, _ =>
           fst r = Returned tt /\ existsb isValueChangedAct new = false
       end.
Proof.
  intros r p s; subst r.
  rewrite validateAndAddActs_eq.
  destruct t as [[p0 s0 h i] [l]]; destruct s0 as [v e ea c pv li].
  subst p s; simpl.
  destruct (evaluateValidationProp _ _ _) as [| f]; simpl.
  - destruct pv as [pv |]; simpl.
    + eexists; split; [reflexivity | split; reflexivity].
    + exists []; split; [now rewrite app_nil_r | split; reflexivity].
  - eexists; split; [reflexivity | split; reflexivity].
Qed.

(** A ValueChangedAct is appended for no other action than "change". *)
Lemma ValueChangedAct_only_for_change (input : ControlInput) (a : string) (t : Turn) :
  String.eqb a Strings.Action_Change = false ->
  exists new,
    acts (resultBuilder (snd (validateAndAddActs input a t)))
    = acts (resultBuilder t) ++ new
    /\ existsb isValueChangedAct new = false.
Proof.
  intros Ha. rewrite validateAndAddActs_eq. unfold reelicitation. rewrite Ha.
  destruct t as [[p0 s0 h i] [l]]; destruct s0 as [v e ea c pv li]; simpl.
  destruct (evaluateValidationProp _ _ _) as [| f]; simpl.
  - eexists; split; reflexivity.
  - destruct (String.eqb a Strings.Action_Set); simpl;
      eexists; split; reflexivity.
Qed.

(** First failure wins. *)
Lemma evaluateValidationProp_first_failure
    (pre post : list StateValidationFunction) (v : StateValidationFunction)
    (s : ValueControlState) (input : ControlInput) (f : ValidationFailure) :
  (forall g, In g pre -> g s input = VTrue) ->
  v s input = VFailure f ->
  evaluateValidationProp (pre ++ v :: post) s input = VFailure f.
Proof.
  induction pre as [| g pre IH]; intros Hpre Hv; simpl.
  - rewrite Hv. reflexivity.
  - rewrite (Hpre g (or_introl eq_refl)). apply IH; [| exact Hv].
    intros g' Hg'. apply Hpre. right. exact Hg'.
Qed.

Lemma evaluateValidationProp_VTrue (fs : list StateValidationFunction)
    (s : ValueControlState) (input : ControlInput) :
  evaluateValidationProp fs s input = VTrue <->
  (forall g, In g fs -> g s input = VTrue).
Proof.
  induction fs as [| g fs IH]; simpl.
  - split; [intros _ g [] | reflexivity].
  - destruct (g s input) eqn:E.
    + rewrite IH. split.
      * intros H g' [<- | Hg']; [exact E | apply H, Hg'].
      * intros H g' Hg'. apply H. right. exact Hg'.
    + split; [discriminate |].
      intros H. specialize (H g (or_introl eq_refl)). congruence.
Qed.

(** C6. When the first validation function that fails (all the ones
    before it in the list pass) fails with [f], [validateAndAddActs]
    for the action set or change returns normally and appends exactly
    an InvalidValueAct with the reason of [f], immediately followed by
    the re-elicitation act of that same action: RequestValueAct for
    set, RequestChangedValueAct for change.  Validation is evaluated on
    the state in which [elicitationAction] is already the new action. *)
Theorem validation_failure_reelicits
    (input : ControlInput) (a : string) (t : Turn)
    (pre post : list StateValidationFunction) (v : StateValidationFunction)
    (f : ValidationFailure) :
  let p := props (this t) in
  let s := set_elicitationAction (Some a) (state (this t)) in
  a = Strings.Action_Set \/ a = Strings.Action_Change ->
  validation p = pre ++ v :: post ->
  (forall g, In g pre -> g s input = VTrue) ->
  v s input = VFailure f ->
  let r := validateAndAddActs input a t in
  fst r = Returned tt
  /\ acts (resultBuilder (snd r)) =
     acts (resultBuilder t)
     ++ [ InvalidValueAct (id p) (value s) (render p (value s) input)
            (reasonCode f) (renderedReason f);
          if String.eqb a Strings.Action_Set
          then RequestValueAct (id p)
          else RequestChangedValueAct (id p) (value s) (render p (value s) input) ]
  /\ state (this (snd r)) = s.
Proof.
  intros p s Ha Hval Hpre Hv r; subst r.
  rewrite validateAndAddActs_eq.
  destruct t as [[p0 s0 h i] [l]]; subst p s; simpl in *.
  rewrite Hval, (evaluateValidationProp_first_failure _ _ _ _ _ _ Hpre Hv).
  unfold reelicitation.
  destruct Ha as [-> | ->]; simpl; repeat split; reflexivity.
Qed.

Lemma validation_failure_reelicits_witness :
  validation (props (this Invalid.three_checks_turn))
  = [Invalid.any_value] ++ Invalid.only_Mike :: [Invalid.never]
  /\ fst (validateAndAddActs Invalid.launch Strings.Action_Change
            Invalid.three_checks_turn) = Returned tt
  /\ acts (resultBuilder (snd (validateAndAddActs Invalid.launch Strings.Action_Change
                                Invalid.three_checks_turn)))
     = [InvalidValueAct "playerName" (Some "Zed") (Some "Zed") (Some "NotMike") None;
        RequestChangedValueAct "playerName" (Some "Zed") (Some "Zed")].
Proof.
  split; [reflexivity |].
  destruct (validation_failure_reelicits Invalid.launch Strings.Action_Change
              Invalid.three_checks_turn [Invalid.any_value] [Invalid.never]
              Invalid.only_Mike Invalid.not_Mike) as (A & B & _).
  - right; reflexivity.
  - reflexivity.
  - intros g [<- | []]; reflexivity.
  - reflexivity.
  - split; [exact A | exact B].
Defined.

(** ** Confirmation of an invalid value *)

(** The state of [Invalid.Zed_turn] is the one the control reaches by
    handling "set name to Zed": the value is stored, rejected and asked
    for again. *)
Example Zed_state_reached :
  option_map (fun r => (fst r, state (this (snd r)), acts (resultBuilder (snd r))))
    (Scenarios.run (Scenarios.canHandle_then_handle Invalid.set_Zed) Invalid.picky_props)
  = Some (Returned true, Invalid.Zed_state,
          [InvalidValueAct "playerName" (Some "Zed") (Some "Zed") (Some "NotMike") None;
           RequestValueAct "playerName"]).
Proof. vm_compute. reflexivity. Qed.




(** ** Dispatch misuse *)

Lemma reads_only_bind {A B} (m : M A) (k : A -> M B) :
  reads_only m -> (forall a, reads_only (k a)) -> reads_only (bind m k).
Proof.
  intros Hm Hk t. unfold bind. specialize (Hm t).
  destruct (m t) as [[a | e] u]; simpl in *; subst u; [apply Hk | reflexivity].
Qed.

Lemma writes_only_when_true_bind {A} (m : M A) (k : A -> M bool) :
  reads_only m -> (forall a, writes_only_when_true (k a)) ->
  writes_only_when_true (bind m k).
Proof.
  intros Hm Hk t. unfold bind. specialize (Hm t).
  destruct (m t) as [[a | e] u]; simpl in *; subst u; [apply Hk | left; reflexivity].
Qed.

Lemma writes_only_when_true_try_catch (m : M bool) (h : Exception -> M bool) :
  writes_only_when_true m -> (forall e, reads_only (h e)) ->
  writes_only_when_true (try_catch m h).
Proof.
  intros Hm Hh t. unfold try_catch. specialize (Hm t).
  destruct (m t) as [[a | e] u]; simpl in *.
  - exact Hm.
  - destruct Hm as [-> | Hm]; [left; apply Hh | discriminate].
Qed.

Lemma writes_only_when_true_select (h : BuiltinHandler) :
  writes_only_when_true (set_handleFunc h ;; ret true).
Proof. intros t. right. reflexivity. Qed.

Lemma reads_only_okIf (b : bool) : reads_only (okIf b).
Proof. destruct b; intros t; reflexivity. Qed.

Lemma reads_only_falseIfGuardFailed (e : Exception) :
  reads_only (falseIfGuardFailed e).
Proof. destruct e; intros t; reflexivity. Qed.

Lemma reads_only_intentOf (input : ControlInput) :
  reads_only (InputUtil.intentOf input).
Proof. unfold InputUtil.intentOf. destruct (request input); intros t; reflexivity. Qed.

Lemma reads_only_first_value (i : Intent) : reads_only (InputUtil.first_value i).
Proof. unfold InputUtil.first_value. destruct (values i); intros t; reflexivity. Qed.

Lemma reads_only_gets {A} (f : Turn -> A) : reads_only (gets f).
Proof. intros t; reflexivity. Qed.

Ltac writes_only_when_true_tac :=
  repeat match goal with
    | |- forall _, _ => intro
    | |- writes_only_when_true (try_catch _ _) =>
        apply writes_only_when_true_try_catch
    | |- writes_only_when_true (bind (set_handleFunc _) _) =>
        apply writes_only_when_true_select
    | |- writes_only_when_true (bind _ _) => apply writes_only_when_true_bind
    | |- reads_only (okIf _) => apply reads_only_okIf
    | |- reads_only (falseIfGuardFailed _) => apply reads_only_falseIfGuardFailed
    | |- reads_only (InputUtil.intentOf _) => apply reads_only_intentOf
    | |- reads_only (InputUtil.first_value _) => apply reads_only_first_value
    | |- reads_only this_state => apply reads_only_gets
    | |- reads_only this_props => apply reads_only_gets
    end.

Lemma standardInputHandlers_write_only_when_true :
  Forall (fun h => forall input, writes_only_when_true (handler_canHandle h input))
    standardInputHandlers.
Proof.
  unfold standardInputHandlers.
  repeat (apply Forall_cons;
          [ simpl; intros input;
            unfold isSetWithValue, isChangeWithValue, isSetWithoutValue,
              isChangeWithoutValue, isBareValue, isConfirmationAffirmed,
              isConfirmationDisaffirmed;
            writes_only_when_true_tac
          | ]).
  apply Forall_nil.
Qed.

Lemma customInputHandlers_write_only_when_true (cs : list CustomHandler) (n : nat) :
  Forall (fun h => forall input, writes_only_when_true (handler_canHandle h input))
    (customInputHandlers n cs).
Proof.
  revert n; induction cs as [| c cs IH]; intros n; simpl; constructor.
  - simpl; intros input t. left. reflexivity.
  - apply IH.
Qed.

Lemma matchingHandlers_none (hs : list ControlInputHandler) (input : ControlInput) :
  Forall (fun h => forall input, writes_only_when_true (handler_canHandle h input)) hs ->
  forall t, fst (matchingHandlers hs input t) = Returned [] ->
            snd (matchingHandlers hs input t) = t.
Proof.
  induction 1 as [| h hs Hh _ IH]; intros t; simpl; [reflexivity |].
  unfold bind. specialize (Hh input t).
  destruct (handler_canHandle h input t) as [[b | e] u]; simpl in *; [| discriminate].
  specialize (IH u).
  destruct (matchingHandlers hs input u) as [[ms | e] v]; simpl in *; [| discriminate].
  unfold ret; simpl. intros E.
  destruct b; [discriminate |].
  destruct Hh as [-> | Hh]; [| discriminate].
  injection E as ->. apply IH. reflexivity.
Qed.

(** A [canHandle] that returns false selects nothing: the control is as
    it was. *)
Lemma canHandle_false_selects_nothing (input : ControlInput) (t : Turn) :
  fst (canHandle input t) = Returned false -> snd (canHandle input t) = t.
Proof.
  unfold canHandle, evaluateInputHandlers, this_props, gets, bind.
  pose proof (matchingHandlers_none
                (standardInputHandlers
                 ++ customInputHandlers 0 (customHandlingFuncs (props (this t))))
                input) as H.
  specialize (H (proj2 (Forall_app _ _ _)
                   (conj standardInputHandlers_write_only_when_true
                         (customInputHandlers_write_only_when_true _ _))) t).
  destruct (matchingHandlers _ input t) as [[[| h ms] | e] u]; simpl in *.
  - intros _. apply H. reflexivity.
  - discriminate.
  - discriminate.
Qed.

(** A [canTakeInitiative] that returns false selects nothing. *)
Lemma canTakeInitiative_false_selects_nothing (input : ControlInput) (t : Turn) :
  fst (canTakeInitiative input t) = Returned false ->
  snd (canTakeInitiative input t) = t.
Proof.
  rewrite canTakeInitiative_eq.
  repeat match goal with
         | |- context [if ?b then _ else _] => destruct b
         end; simpl; try discriminate; reflexivity.
Qed.

(** C8. [handle] on a control whose [handleFunc] is not set throws and
    leaves the control and the acts of the turn as they were; so does
    [takeInitiative] when [initiativeFunc] is not set.  A control fresh
    from its constructor has neither set, and a [canHandle] or a
    [canTakeInitiative] that returns false sets neither. *)
Theorem handle_without_decision_throws (input : ControlInput) (t : Turn) :
  let t0 := with_handleFunc None t in
  let t1 := with_initiativeFunc None t in
  (exists e, handle input t0 = (Threw e, t0))
  /\ (exists e, takeInitiative input t1 = (Threw e, t1))
  /\ (forall input',
        fst (canHandle input' t0) = Returned false ->
        exists e, handle input (snd (canHandle input' t0)) = (Threw e, t0))
  /\ (forall input',
        fst (canTakeInitiative input' t1) = Returned false ->
        exists e, takeInitiative input (snd (canTakeInitiative input' t1))
                  = (Threw e, t1))
  /\ (forall p,
        match new_ValueControl p with
        | Returned c => handleFunc c = None /\ initiativeFunc c = None
        | Threw _ => True
        end).
Proof.
  intros t0 t1.
  assert (H0 : exists e, handle input t0 = (Threw e, t0)).
  { unfold handle, InputUtil.intentOf; unfold_monad; simpl.
    destruct (request input); eexists; reflexivity. }
  assert (H1 : exists e, takeInitiative input t1 = (Threw e, t1)).
  { unfold takeInitiative; unfold_monad; simpl. eexists; reflexivity. }
  split; [exact H0 |]. split; [exact H1 |].
  split; [| split].
  - intros input' Hf. rewrite (canHandle_false_selects_nothing _ _ Hf). exact H0.
  - intros input' Hf.
    rewrite (canTakeInitiative_false_selects_nothing _ _ Hf). exact H1.
  - intros p. unfold new_ValueControl.
    destruct (String.eqb (Raw.slotType p) _); simpl; auto.
Qed.

(** ** canHandle only selects *)


Lemma frame_refl (t : Turn) : frame t t.
Proof. unfold frame; auto. Qed.

Lemma frame_trans (t u v : Turn) : frame t u -> frame u v -> frame t v.
Proof. unfold frame; intuition congruence. Qed.

Ltac selects_nothing :=
  split; [reflexivity |];
  split; [apply frame_refl |];
  split; [apply frame_refl |];
  left; split; reflexivity.

Lemma selects_only_ret {A} (a : A) : selects_only (ret a).
Proof.
  intros t1 t2 _ _; simpl. selects_nothing.
Qed.

Lemma selects_only_throw {A} (e : Exception) : selects_only (@throw A e).
Proof.
  intros t1 t2 _ _; simpl. selects_nothing.
Qed.

Lemma selects_only_this_state : selects_only this_state.
Proof.
  intros t1 t2 _ Hs; simpl. rewrite Hs. selects_nothing.
Qed.

Lemma selects_only_this_props : selects_only this_props.
Proof.
  intros t1 t2 Hp _; simpl. rewrite Hp. selects_nothing.
Qed.

Lemma selects_only_with_handleFunc (h : option HandleFunc) :
  selects_only (modify (with_handleFunc h)).
Proof.
  intros t1 t2 _ _; simpl.
  split; [reflexivity |].
  split; [unfold frame; simpl; repeat split |].
  split; [unfold frame; simpl; repeat split |].
  right; reflexivity.
Qed.

Lemma selects_only_okIf (b : bool) : selects_only (okIf b).
Proof.
  destruct b; [apply selects_only_ret | apply selects_only_throw].
Qed.

Lemma selects_only_falseIfGuardFailed (e : Exception) :
  selects_only (falseIfGuardFailed e).
Proof.
  destruct e; [apply selects_only_ret | apply selects_only_throw ..].
Qed.

Lemma selects_only_bind {A B} (m : M A) (k : A -> M B) :
  selects_only m -> (forall a, selects_only (k a)) -> selects_only (bind m k).
Proof.
  intros Hm Hk t1 t2 Hp Hs.
  destruct (Hm t1 t2 Hp Hs) as (Ho & F1 & F2 & Hh).
  unfold bind.
  destruct (m t1) as [o1 u1], (m t2) as [o2 u2]; simpl in *.
  subst o2. destruct o1 as [a | e]; simpl; [| auto].
  destruct (Hk a u1 u2) as (Ho' & G1 & G2 & Hh').
  { destruct F1 as (-> & _), F2 as (-> & _). exact Hp. }
  { destruct F1 as (_ & -> & _), F2 as (_ & -> & _). exact Hs. }
  split; [exact Ho' |].
  split; [exact (frame_trans _ _ _ F1 G1) |].
  split; [exact (frame_trans _ _ _ F2 G2) |].
  destruct Hh as [[A1 A2] | A1], Hh' as [[B1 B2] | B1].
  - left; split; congruence.
  - right; exact B1.
  - right; congruence.
  - right; exact B1.
Qed.

Lemma selects_only_try_catch {A} (m : M A) (h : Exception -> M A) :
  selects_only m -> (forall e, selects_only (h e)) -> selects_only (try_catch m h).
Proof.
  intros Hm Hh t1 t2 Hp Hs.
  destruct (Hm t1 t2 Hp Hs) as (Ho & F1 & F2 & Hf).
  unfold try_catch.
  destruct (m t1) as [o1 u1], (m t2) as [o2 u2]; simpl in *.
  subst o2. destruct o1 as [a | e]; simpl; [auto |].
  destruct (Hh e u1 u2) as (Ho' & G1 & G2 & Hf').
  { destruct F1 as (-> & _), F2 as (-> & _). exact Hp. }
  { destruct F1 as (_ & -> & _), F2 as (_ & -> & _). exact Hs. }
  split; [exact Ho' |].
  split; [exact (frame_trans _ _ _ F1 G1) |].
  split; [exact (frame_trans _ _ _ F2 G2) |].
  destruct Hf as [[A1 A2] | A1], Hf' as [[B1 B2] | B1].
  - left; split; congruence.
  - right; exact B1.
  - right; congruence.
  - right; exact B1.
Qed.

Lemma selects_only_intentOf (input : ControlInput) :
  selects_only (InputUtil.intentOf input).
Proof.
  unfold InputUtil.intentOf.
  destruct (request input); [apply selects_only_ret | apply selects_only_throw ..].
Qed.

Lemma selects_only_first_value (i : Intent) :
  selects_only (InputUtil.first_value i).
Proof.
  unfold InputUtil.first_value.
  destruct (values i); [apply selects_only_throw | apply selects_only_ret].
Qed.

Ltac selects_only_tac :=
  repeat match goal with
    | |- forall _, selects_only _ => intro
    | |- selects_only (try_catch _ _) => apply selects_only_try_catch
    | |- selects_only (bind _ _) => apply selects_only_bind
    | |- selects_only (ret _) => apply selects_only_ret
    | |- selects_only (throw _) => apply selects_only_throw
    | |- selects_only this_state => apply selects_only_this_state
    | |- selects_only this_props => apply selects_only_this_props
    | |- selects_only (okIf _) => apply selects_only_okIf
    | |- selects_only (falseIfGuardFailed _) => apply selects_only_falseIfGuardFailed
    | |- selects_only (modify (with_handleFunc _)) => apply selects_only_with_handleFunc
    | |- selects_only (InputUtil.intentOf _) => apply selects_only_intentOf
    | |- selects_only (InputUtil.first_value _) => apply selects_only_first_value
    end.

Lemma standardInputHandlers_select_only :
  Forall (fun h => forall input, selects_only (handler_canHandle h input))
    standardInputHandlers.
Proof.
  unfold standardInputHandlers.
  repeat (apply Forall_cons;
          [ simpl; intros input;
            unfold isSetWithValue, isChangeWithValue, isSetWithoutValue,
              isChangeWithoutValue, isBareValue, isConfirmationAffirmed,
              isConfirmationDisaffirmed, set_handleFunc;
            selects_only_tac
          | ]).
  apply Forall_nil.
Qed.

Lemma customInputHandlers_select_only (cs : list CustomHandler) (n : nat) :
  Forall (fun h => forall input, selects_only (handler_canHandle h input))
    (customInputHandlers n cs).
Proof.
  revert n; induction cs as [| c cs IH]; intros n; simpl; constructor.
  - simpl; intros input; selects_only_tac.
  - apply IH.
Qed.

Lemma matchingHandlers_selects_only (hs : list ControlInputHandler)
    (input : ControlInput) :
  Forall (fun h => forall input, selects_only (handler_canHandle h input)) hs ->
  selects_only (matchingHandlers hs input).
Proof.
  induction 1 as [| h hs Hh _ IH]; simpl.
  - apply selects_only_ret.
  - apply selects_only_bind; [apply Hh | intros b].
    apply selects_only_bind; [apply IH | intros ms].
    apply selects_only_ret.
Qed.

Lemma canHandle_selects_only (input : ControlInput) : selects_only (canHandle input).
Proof.
  unfold canHandle, evaluateInputHandlers.
  apply selects_only_bind; [apply selects_only_this_props | intros p].
  apply selects_only_bind.
  - apply matchingHandlers_selects_only, Forall_app. split.
    + apply standardInputHandlers_select_only.
    + apply customInputHandlers_select_only.
  - intros [| h ms]; selects_only_tac.
Qed.

(** C9. [canHandle] is idempotent: called again on the control as the
    first call left it, it returns the same decision (or throws the same
    error) and leaves the control exactly as the first call left it, so
    the same handler is selected both times; and neither call changes
    the state of the control, its props or the acts of the turn. *)
Theorem canHandle_idempotent (input : ControlInput) (t : Turn) :
  let r1 := canHandle input t in
  let r2 := canHandle input (snd r1) in
  fst r2 = fst r1
  /\ handleFunc (this (snd r2)) = handleFunc (this (snd r1))
  /\ state (this (snd r1)) = state (this t)
  /\ state (this (snd r2)) = state (this t)
  /\ resultBuilder (snd r2) = resultBuilder t
  /\ snd r2 = snd r1.
Proof.
  intros r1 r2; subst r1 r2.
  pose proof (canHandle_selects_only input) as H.
  destruct (H t t eq_refl eq_refl) as (_ & (P & S & I & R) & _ & _).
  destruct (H t (snd (canHandle input t))) as (Ho & _ & (P2 & S2 & I2 & R2) & Hh);
    [congruence | congruence |].
  assert (Hf : handleFunc (this (snd (canHandle input (snd (canHandle input t)))))
               = handleFunc (this (snd (canHandle input t)))).
  { destruct Hh as [[_ A] | A]; congruence. }
  repeat split; try congruence.
  apply Turn_eq; congruence.
Qed.

(** ** Initiative acts of a turn *)


Lemma count_initiative_app (l l' : list SystemAct) :
  count_initiative (l ++ l') = count_initiative l + count_initiative l'.
Proof.
  unfold count_initiative. rewrite filter_app, length_app. reflexivity.
Qed.

Lemma count_initiative_existsb (l : list SystemAct) :
  existsb takesInitiative l = false -> count_initiative l = 0.
Proof.
  unfold count_initiative.
  induction l as [| a l IH]; simpl; [reflexivity |].
  destruct (takesInitiative a); simpl; [discriminate | exact IH].
Qed.

Lemma appends_nothing {A} (n : nat) (m : M A) :
  (forall t, resultBuilder (snd (m t)) = resultBuilder t) -> appends n m.
Proof.
  intros H t. exists []. rewrite H, app_nil_r.
  split; [reflexivity | unfold count_initiative; simpl; lia].
Qed.

Lemma appends_le {A} (n n' : nat) (m : M A) : n <= n' -> appends n m -> appends n' m.
Proof.
  intros Hle H t. destruct (H t) as (new & E & C). exists new. split; [exact E | lia].
Qed.

Lemma appends_ret {A} (n : nat) (a : A) : appends n (ret a).
Proof. apply appends_nothing; reflexivity. Qed.

Lemma appends_throw {A} (n : nat) (e : Exception) : appends n (@throw A e).
Proof. apply appends_nothing; reflexivity. Qed.

Lemma appends_gets {A} (n : nat) (f : Turn -> A) : appends n (gets f).
Proof. apply appends_nothing; reflexivity. Qed.

Lemma appends_with_state (n : nat) (f : ValueControlState -> ValueControlState) :
  appends n (modify (with_state f)).
Proof. apply appends_nothing; reflexivity. Qed.

Lemma appends_with_initiativeFunc (n : nat) (i : option InitiativeFunc) :
  appends n (modify (with_initiativeFunc i)).
Proof. apply appends_nothing; reflexivity. Qed.

Lemma appends_addAct_content (n : nat) (a : SystemAct) :
  takesInitiative a = false -> appends n (addAct a).
Proof.
  intros H t. exists [a]. split; [reflexivity |].
  unfold count_initiative; simpl. rewrite H. simpl; lia.
Qed.

Lemma appends_addAct (a : SystemAct) : appends 1 (addAct a).
Proof.
  intros t. exists [a]. split; [reflexivity |].
  unfold count_initiative; simpl. destruct (takesInitiative a); simpl; lia.
Qed.

Lemma appends_bind {A B} (n : nat) (m : M A) (k : A -> M B) :
  appends 0 m -> (forall a, appends n (k a)) -> appends n (bind m k).
Proof.
  intros Hm Hk t. unfold bind.
  destruct (Hm t) as (new & E & C).
  destruct (m t) as [[a | e] u]; simpl in *.
  - destruct (Hk a u) as (new' & E' & C').
    exists (new ++ new'). rewrite E', E, app_assoc. split; [reflexivity |].
    rewrite count_initiative_app. lia.
  - exists new. split; [exact E | lia].
Qed.

Ltac appends_tac :=
  repeat match goal with
    | |- forall _, appends _ _ => intro
    | |- appends _ (bind _ _) => apply appends_bind
    | |- appends _ (ret _) => apply appends_ret
    | |- appends _ (throw _) => apply appends_throw
    | |- appends _ (gets _) => apply appends_gets
    | |- appends _ this_state => apply appends_gets
    | |- appends _ this_props => apply appends_gets
    | |- appends _ (modify (with_state _)) => apply appends_with_state
    | |- appends _ (modify (with_initiativeFunc _)) => apply appends_with_initiativeFunc
    | |- appends _ (set_initiativeFunc _) => apply appends_with_initiativeFunc
    | |- appends 1 (addAct _) => apply appends_addAct
    | |- appends _ (addAct _) => apply appends_addAct_content; reflexivity
    | |- appends _ (if ?b then _ else _) => destruct b
    | |- appends _ (match ?x with _ => _ end) => destruct x
    end.

Lemma appends_setValue (n : nat) (v : string) (er : option bool) :
  appends n (setValue v er).
Proof. unfold setValue. appends_tac. Qed.

Lemma appends_getValueResolution (n : nat) (input : ControlInput) :
  appends n (InputUtil.getValueResolution input).
Proof.
  unfold InputUtil.getValueResolution, InputUtil.intentOf, InputUtil.first_value.
  appends_tac.
Qed.

Lemma appends_askElicitationQuestion (input : ControlInput) (a : string) :
  appends 1 (askElicitationQuestion input a).
Proof. unfold askElicitationQuestion. appends_tac. Qed.

Lemma appends_validateAndAddActs (input : ControlInput) (a : string) :
  appends 1 (validateAndAddActs input a).
Proof.
  unfold validateAndAddActs. appends_tac.
  apply appends_askElicitationQuestion.
Qed.

(** Every built-in handler appends at most one initiative act. *)
Lemma appends_call_builtin (h : BuiltinHandler) (input : ControlInput) :
  appends 1 (call_builtin h input).
Proof.
  destruct h; simpl;
    unfold handleSetWithValue, handleChangeWithValue, handleSetWithoutValue,
      handleChangeWithoutValue, handleBareValue, handleConfirmationAffirmed,
      handleConfirmationDisaffirmed;
    repeat first
      [ apply appends_getValueResolution
      | apply appends_setValue
      | apply appends_validateAndAddActs
      | apply appends_askElicitationQuestion
      | progress appends_tac ].
Qed.

Lemma appends_canTakeInitiative (n : nat) (input : ControlInput) :
  appends n (canTakeInitiative input).
Proof.
  unfold canTakeInitiative, orM, wantsToConfirmValue, wantsToFixInvalidValue,
    wantsToElicitValue.
  appends_tac.
Qed.

Lemma appends_takeInitiative (input : ControlInput) : appends 1 (takeInitiative input).
Proof.
  unfold takeInitiative, call_initiativeFunc, confirmValue, fixInvalidValue, elicitValue.
  repeat first
    [ apply appends_validateAndAddActs
    | apply appends_askElicitationQuestion
    | progress appends_tac ].
Qed.

Lemma appends_initiativeStep (input : ControlInput) : appends 1 (initiativeStep input).
Proof.
  unfold initiativeStep.
  apply appends_bind; [apply appends_canTakeInitiative | intros b].
  destruct (Bool.eqb b true); [apply appends_takeInitiative | apply appends_ret].
Qed.

(** [handle] with a handler selected: the handler, then the initiative
    step when the result holds no initiative act. *)
Lemma handle_eq (input : ControlInput) (t : Turn) (f : HandleFunc) :
  handleFunc (this t) = Some f ->
  handle input t =
  match call_handleFunc f input t with
  | (Returned _, t1) =>
      if existsb takesInitiative (acts (resultBuilder t1))
      then (Returned tt, t1)
      else initiativeStep input t1
  | (Threw e, t1) => (Threw e, t1)
  end.
Proof.
  intros H. unfold handle; unfold_monad. rewrite H.
  destruct (call_handleFunc f input t) as [[[] | e] t1]; [| reflexivity].
  destruct (existsb takesInitiative (acts (resultBuilder t1))); reflexivity.
Qed.

(** C7. A result produced by [handle] through a built-in handler, from a
    result that holds no initiative act, holds at most one: the handler
    appends at most one initiative act, and the initiative step runs
    only when the result after the handler holds none (and then appends
    at most one). *)
Theorem handle_at_most_one_initiative_act
    (input : ControlInput) (t : Turn) (h : BuiltinHandler) :
  handleFunc (this t) = Some (Builtin h) ->
  existsb takesInitiative (acts (resultBuilder t)) = false ->
  count_initiative (acts (resultBuilder (snd (handle input t)))) <= 1
  /\ (exists new,
        acts (resultBuilder (snd (call_builtin h input t)))
        = acts (resultBuilder t) ++ new
        /\ count_initiative new <= 1)
  /\ handle input t =
     match call_builtin h input t with
     | (Returned _, t1) =>
         if existsb takesInitiative (acts (resultBuilder t1))
         then (Returned tt, t1)
         else initiativeStep input t1
     | (Threw e, t1) => (Threw e, t1)
     end.
Proof.
  intros Hh H0.
  pose proof (handle_eq input t _ Hh) as He; simpl in He.
  split; [| split; [apply appends_call_builtin | exact He]].
  rewrite He.
  destruct (appends_call_builtin h input t) as (new & E & C).
  apply count_initiative_existsb in H0.
  destruct (call_builtin h input t) as [[[] | e] t1]; simpl in *.
  - destruct (existsb takesInitiative (acts (resultBuilder t1))) eqn:X.
    + simpl. rewrite E, count_initiative_app. lia.
    + apply count_initiative_existsb in X.
      destruct (appends_initiativeStep input t1) as (new' & E' & C').
      rewrite E', count_initiative_app. lia.
  - rewrite E, count_initiative_app. lia.
Qed.

Lemma handle_at_most_one_initiative_act_witness :
  handleFunc (this Invalid.selected_turn) = Some (Builtin SetWithValue)
  /\ existsb takesInitiative (acts (resultBuilder Invalid.selected_turn)) = false
  /\ acts (resultBuilder (snd (handle Invalid.set_Zed Invalid.selected_turn)))
     = [InvalidValueAct "playerName" (Some "Zed") (Some "Zed") (Some "NotMike") None;
        RequestValueAct "playerName"]
  /\ count_initiative
       (acts (resultBuilder (snd (handle Invalid.set_Zed Invalid.selected_turn)))) <= 1.
Proof.
  split; [reflexivity |]. split; [reflexivity |]. split; [reflexivity |].
  apply (handle_at_most_one_initiative_act Invalid.set_Zed Invalid.selected_turn
           SetWithValue); reflexivity.
Defined.

(** ** The confirmation flag after a value is set or changed *)

Lemma validateAndAddActs_keeps_confirmation (input : ControlInput) (a : string)
    (t : Turn) :
  isValueConfirmed (state (this (snd (validateAndAddActs input a t))))
  = isValueConfirmed (state (this t)).
Proof.
  rewrite validateAndAddActs_eq.
  destruct t as [[p s h i] [l]]; destruct s as [v e ea c pv li]; simpl.
  destruct (evaluateValidationProp _ _ _); simpl.
  - destruct (String.eqb a Strings.Action_Change); [destruct pv |]; reflexivity.
  - destruct (reelicitation _ _ _ _); reflexivity.
Qed.

Lemma initiativeStep_keeps_confirmation (input : ControlInput) (t : Turn) :
  isValueConfirmed (state (this (snd (initiativeStep input t))))
  = isValueConfirmed (state (this t)).
Proof.
  unfold initiativeStep, bind. rewrite canTakeInitiative_eq.
  repeat match goal with
         | |- context [if ?b then (_, _) else _] => destruct b
         end; simpl; try reflexivity.
  - apply (validateAndAddActs_keeps_confirmation input Strings.Action_Change
             (with_initiativeFunc (Some FixInvalidValue) t)).
Qed.

(** After [handle] ran one of them to the end, the value is unconfirmed:
    [setValue] cleared the flag and nothing after it in the turn sets it. *)
Lemma handle_value_leaves_unconfirmed (h : BuiltinHandler) (input : ControlInput)
    (t : Turn) :
  takes_value h = true ->
  handleFunc (this t) = Some (Builtin h) ->
  fst (handle input t) = Returned tt ->
  isValueConfirmed (state (this (snd (handle input t)))) = false.
Proof.
  intros Hv Hh.
  rewrite (handle_eq input t _ Hh); simpl.
  assert (Hc : forall u, fst (call_builtin h input t) = Returned u ->
               isValueConfirmed (state (this (snd (call_builtin h input t)))) = false).
  { destruct h; try discriminate; simpl;
      unfold handleSetWithValue, handleChangeWithValue, handleBareValue, bind;
      destruct (InputUtil.getValueResolution input t) as [[r | e] t1];
      simpl; try discriminate; intros u _;
      unfold this_state, gets; simpl;
      rewrite validateAndAddActs_keeps_confirmation; reflexivity. }
  destruct (call_builtin h input t) as [[[] | e] t1]; simpl in *; [| discriminate].
  specialize (Hc tt eq_refl).
  destruct (existsb takesInitiative (acts (resultBuilder t1))); simpl.
  - intros _. exact Hc.
  - intros _. rewrite initiativeStep_keeps_confirmation. exact Hc.
Qed.

(** * More of ValueControl *)

(** ** canTakeInitiative only selects *)

(** X1. [canTakeInitiative] always returns a boolean and writes nothing
    but [initiativeFunc]; called again on the control as the first call
    left it, it returns the same decision and leaves the control as it
    is. *)
Theorem canTakeInitiative_idempotent (input : ControlInput) (t : Turn) :
  let r1 := canTakeInitiative input t in
  let r2 := canTakeInitiative input (snd r1) in
  (exists b, fst r1 = Returned b)
  /\ fst r2 = fst r1
  /\ snd r2 = snd r1
  /\ state (this (snd r1)) = state (this t)
  /\ handleFunc (this (snd r1)) = handleFunc (this t)
  /\ resultBuilder (snd r1) = resultBuilder t.
Proof.
  intros r1 r2; subst r1 r2.
  rewrite (canTakeInitiative_eq input t).
  destruct (isDefined (value (state (this t))) && negb (isValueConfirmed (state (this t)))
            && confirmationRequired (props (this t)) input) eqn:Ea;
    [| destruct (isDefined (value (state (this t)))
                 && negb (isVTrue (evaluateValidationProp (validation (props (this t)))
                                     (state (this t)) input))) eqn:Eb;
       [| destruct (negb (isDefined (value (state (this t))))
                    && required (props (this t)) input) eqn:Ec ] ];
    rewrite canTakeInitiative_eq; simpl; rewrite ?Ea, ?Eb, ?Ec;
    repeat split; eauto.
Qed.

(** ** What a value handler does to the state and the acts *)

Lemma setValue_eq (v : string) (er : bool) (t : Turn) :
  setValue v (Some er) t = (Returned tt, with_state (after_setValue v er) t).
Proof. reflexivity. Qed.

Lemma getValueResolution_reads_only (input : ControlInput) :
  reads_only (InputUtil.getValueResolution input).
Proof.
  unfold InputUtil.getValueResolution, InputUtil.intentOf, InputUtil.first_value.
  intros t; unfold bind, ret, throw.
  destruct (request input) as [i | |]; simpl; try reflexivity.
  destruct (values i) as [| v0 vs]; simpl; try reflexivity.
  destruct (slotValue v0); reflexivity.
Qed.

Lemma getValueResolution_any_turn (input : ControlInput) (t u : Turn) :
  fst (InputUtil.getValueResolution input t) = fst (InputUtil.getValueResolution input u).
Proof.
  unfold InputUtil.getValueResolution, InputUtil.intentOf, InputUtil.first_value.
  unfold bind, ret, throw.
  destruct (request input) as [i | |]; simpl; try reflexivity.
  destruct (values i) as [| v0 vs]; simpl; try reflexivity.
  destruct (slotValue v0); reflexivity.
Qed.

(** A value handler, once the value is read from the input: [setValue],
    then [validateAndAddActs] under the attempted action. *)
Lemma call_value_handler_eq (h : BuiltinHandler) (input : ControlInput) (t : Turn)
    (v : string) (er : bool) :
  takes_value h = true ->
  fst (InputUtil.getValueResolution input t) = Returned (v, er) ->
  call_builtin h input t =
  validateAndAddActs input (attempted_action h (state (this t)))
    (with_state (after_setValue v er) t).
Proof.
  intros Hh Hr.
  pose proof (getValueResolution_reads_only input t) as Ht.
  destruct (InputUtil.getValueResolution input t) as [o u] eqn:E; simpl in *; subst o u.
  destruct h; try discriminate; simpl;
    unfold handleSetWithValue, handleChangeWithValue, handleBareValue, bind;
    rewrite E; simpl; try reflexivity.
Qed.




Lemma validateAndAddActs_state (input : ControlInput) (a : string) (t : Turn) :
  state (this (snd (validateAndAddActs input a t)))
  = set_elicitationAction (Some a) (state (this t)).
Proof.
  rewrite validateAndAddActs_eq.
  destruct t as [[p s h i] [l]]; simpl.
  destruct (evaluateValidationProp _ _ _); simpl.
  - destruct (String.eqb a Strings.Action_Change); [destruct (previousValue s) |];
      reflexivity.
  - destruct (reelicitation _ _ _ _); reflexivity.
Qed.

(** The initiative step, by the decision of [canTakeInitiative]. *)
Lemma initiativeStep_eq (input : ControlInput) (t : Turn) :
  let s := state (this t) in
  let p := props (this t) in
  initiativeStep input t =
  if isDefined (value s) && negb (isValueConfirmed s) && confirmationRequired p input
  then confirmValue input (with_initiativeFunc (Some ConfirmValue) t)
  else if isDefined (value s)
          && negb (isVTrue (evaluateValidationProp (validation p) s input))
  then validateAndAddActs input Strings.Action_Change
         (with_initiativeFunc (Some FixInvalidValue) t)
  else if negb (isDefined (value s)) && required p input
  then askElicitationQuestion input Strings.Action_Set
         (with_initiativeFunc (Some ElicitValue) t)
  else (Returned tt, t).
Proof.
  intros s p. unfold initiativeStep, bind. rewrite canTakeInitiative_eq. fold s p.
  repeat match goal with
         | |- context [if ?b then (_, _) else _] => destruct b
         end; reflexivity.
Qed.

(** The initiative step changes the state in [elicitationAction] or in
    [lastInitiative] only. *)
Lemma initiativeStep_state (input : ControlInput) (t : Turn) :
  let s := state (this t) in
  let s' := state (this (snd (initiativeStep input t))) in
  s' = s
  \/ s' = set_lastInitiative_actName (Some ConfirmValueAct_name) s
  \/ s' = set_elicitationAction (Some Strings.Action_Change) s
  \/ s' = set_elicitationAction (Some Strings.Action_Set) s.
Proof.
  intros s s'; subst s s'. rewrite initiativeStep_eq.
  repeat match goal with
         | |- context [if ?b then _ else _] => destruct b
         end.
  - right; left. reflexivity.
  - right; right; left. rewrite validateAndAddActs_state. reflexivity.
  - right; right; right. reflexivity.
  - left. reflexivity.
Qed.

(** X2. A value handler stores the value it reads from the input
    whatever validation says of it and whether or not the turn ends in
    an error: after [handle], [value] is the new value, [erMatch] its
    match flag, [previousValue] the value held before, and the value is
    unconfirmed.  A rejected value is not rolled back. *)
Theorem value_is_stored_even_when_rejected (h : BuiltinHandler)
    (input : ControlInput) (t : Turn) (v : string) (er : bool) :
  takes_value h = true ->
  handleFunc (this t) = Some (Builtin h) ->
  fst (InputUtil.getValueResolution input t) = Returned (v, er) ->
  let s' := state (this (snd (handle input t))) in
  value s' = Some v
  /\ erMatch s' = Some er
  /\ previousValue s' = value (state (this t))
  /\ isValueConfirmed s' = false.
Proof.
  intros Hh Hf Hr s'; subst s'.
  rewrite (handle_eq input t _ Hf); simpl call_handleFunc.
  rewrite (call_value_handler_eq h input t v er Hh Hr).
  pose proof (validateAndAddActs_state input (attempted_action h (state (this t)))
                (with_state (after_setValue v er) t)) as Hs.
  destruct (validateAndAddActs _ _ _) as [[[] | e] t1]; simpl in Hs.
  - destruct (existsb takesInitiative (acts (resultBuilder t1))); simpl.
    + rewrite Hs. repeat split.
    + destruct (initiativeStep_state input t1) as [E | [E | [E | E]]];
        rewrite E, Hs; repeat split.
  - simpl. rewrite Hs. repeat split.
Qed.

Lemma value_is_stored_even_when_rejected_witness :
  fst (InputUtil.getValueResolution Invalid.set_Zed Invalid.selected_turn)
  = Returned ("Zed", true)
  /\ fst (handle Invalid.set_Zed Invalid.selected_turn) = Returned tt
  /\ acts (resultBuilder (snd (handle Invalid.set_Zed Invalid.selected_turn)))
     = [InvalidValueAct "playerName" (Some "Zed") (Some "Zed") (Some "NotMike") None;
        RequestValueAct "playerName"]
  /\ value (state (this (snd (handle Invalid.set_Zed Invalid.selected_turn))))
     = Some "Zed".
Proof.
  split; [reflexivity |]. split; [reflexivity |]. split; [reflexivity |].
  apply (value_is_stored_even_when_rejected SetWithValue Invalid.set_Zed
           Invalid.selected_turn "Zed" true); reflexivity.
Defined.

(** X3. A change with nothing to change from: when the handler
    validates under the action change (ChangeWithValue, or a bare value
    while a change is asked for), the control holds no value and the
    new value passes validation, [handle] throws the Error of
    ValueChangedAct, appends no act, and the new value stays stored. *)
Theorem change_of_no_value_throws (h : BuiltinHandler)
    (input : ControlInput) (t : Turn) (v : string) (er : bool) :
  let s' := set_elicitationAction (Some Strings.Action_Change)
              (after_setValue v er (state (this t))) in
  takes_value h = true ->
  handleFunc (this t) = Some (Builtin h) ->
  fst (InputUtil.getValueResolution input t) = Returned (v, er) ->
  attempted_action h (state (this t)) = Strings.Action_Change ->
  value (state (this t)) = None ->
  evaluateValidationProp (validation (props (this t))) s' input = VTrue ->
  handle input t
  = (Threw (Error ValueChangedAct_message), with_state (fun _ => s') t).
Proof.
  intros s' Hh Hf Hr Ha Hv Hval.
  rewrite (handle_eq input t _ Hf); simpl call_handleFunc.
  rewrite (call_value_handler_eq h input t v er Hh Hr), Ha, validateAndAddActs_eq.
  destruct t as [[p s hf i] [l]]; simpl in *.
  fold s'. rewrite Hval. simpl. rewrite Hv. reflexivity.
Qed.

Lemma change_of_no_value_throws_witness :
  fst (InputUtil.getValueResolution Turns.change_Mike Turns.empty_change_turn)
  = Returned ("Mike", true)
  /\ value (state (this Turns.empty_change_turn)) = None
  /\ fst (handle Turns.change_Mike Turns.empty_change_turn)
     = Threw (Error ValueChangedAct_message)
  /\ value (state (this (snd (handle Turns.change_Mike Turns.empty_change_turn))))
     = Some "Mike"
  /\ acts (resultBuilder (snd (handle Turns.change_Mike Turns.empty_change_turn))) = [].
Proof.
  split; [reflexivity |]. split; [reflexivity |].
  rewrite (change_of_no_value_throws ChangeWithValue Turns.change_Mike
             Turns.empty_change_turn "Mike" true);
    try reflexivity.
  repeat split.
Defined.






(** ** Confirmation *)

Lemma handle_confirmation_state (h : BuiltinHandler) (input : ControlInput) (t : Turn) :
  h = ConfirmationAffirmed \/ h = ConfirmationDisaffirmed ->
  handleFunc (this t) = Some (Builtin h) ->
  let s := state (this t) in
  let s' := state (this (snd (handle input t))) in
  actName (lastInitiative s') = None
  /\ value s' = value s
  /\ previousValue s' = previousValue s
  /\ isValueConfirmed s'
     = match h with ConfirmationAffirmed => true | _ => false end.
Proof.
  intros Hh Hf s s'; subst s s'.
  rewrite (handle_eq input t _ Hf); simpl call_handleFunc.
  destruct Hh as [-> | ->]; simpl.
  - unfold handleConfirmationAffirmed; unfold_monad; simpl.
    match goal with |- context [existsb takesInitiative ?l] =>
      destruct (existsb takesInitiative l) end; simpl; [repeat split |].
    match goal with |- context [initiativeStep input ?u] =>
      rewrite (initiativeStep_eq input u); simpl end.
    rewrite andb_false_r. simpl.
    repeat match goal with
           | |- context [if ?b then _ else _] => destruct b
           end;
      rewrite ?validateAndAddActs_state; simpl; repeat split.
  - unfold handleConfirmationDisaffirmed; unfold_monad; simpl.
    rewrite !existsb_app; simpl. rewrite !orb_true_r. simpl. repeat split.
Qed.

(** X6. A confirmation is used up by its answer: after [handle] ran
    the handler of a yes or of a no, [lastInitiative.actName] is unset,
    so that for every further input both confirmation predicates return
    false until the control asks to confirm again; the value is the
    same, and it is confirmed after a yes and unconfirmed after a no. *)
Theorem confirmation_is_used_up (h : BuiltinHandler) (input input' : ControlInput)
    (t : Turn) :
  h = ConfirmationAffirmed \/ h = ConfirmationDisaffirmed ->
  handleFunc (this t) = Some (Builtin h) ->
  let t' := snd (handle input t) in
  fst (isConfirmationAffirmed input' t') = Returned false
  /\ fst (isConfirmationDisaffirmed input' t') = Returned false
  /\ value (state (this t')) = value (state (this t))
  /\ isValueConfirmed (state (this t'))
     = match h with ConfirmationAffirmed => true | _ => false end.
Proof.
  intros Hh Hf t'.
  destruct (handle_confirmation_state h input t Hh Hf) as (Hn & Hv & _ & Hc).
  fold t' in Hn, Hv, Hc.
  rewrite isConfirmationAffirmed_eq, isConfirmationDisaffirmed_eq.
  unfold actName_is_ConfirmValueAct. rewrite Hn, !andb_false_r. simpl.
  repeat split; assumption.
Qed.

Lemma confirmation_is_used_up_witness :
  fst (isConfirmationAffirmed Scenarios.yes Turns.yes_turn) = Returned true
  /\ fst (isConfirmationAffirmed Scenarios.yes
            (snd (handle Scenarios.yes Turns.yes_turn))) = Returned false
  /\ isValueConfirmed (state (this (snd (handle Scenarios.yes Turns.yes_turn)))) = true.
Proof.
  split; [reflexivity |].
  destruct (confirmation_is_used_up ConfirmationAffirmed Scenarios.yes Scenarios.yes
              Turns.yes_turn) as (A & _ & _ & C).
  - left; reflexivity.
  - reflexivity.
  - split; [exact A | exact C].
Defined.

(** X7. A no does not clear the value: [handle] with the handler of a
    no returns normally, appends exactly a ValueDisconfirmedAct for the
    value and a RequestValueAct, and leaves [value] and
    [elicitationAction] as they were; so a control that requires
    confirmation, asked for its initiative afterwards, asks to confirm
    the same value again. *)
Theorem disconfirmed_value_is_kept (input input' : ControlInput) (t : Turn) (v : string) :
  let p := props (this t) in
  let t' := snd (handle input t) in
  handleFunc (this t) = Some (Builtin ConfirmationDisaffirmed) ->
  value (state (this t)) = Some v ->
  confirmationRequired p input' = true ->
  fst (handle input t) = Returned tt
  /\ acts (resultBuilder t')
     = acts (resultBuilder t)
       ++ [ValueDisconfirmedAct (id p) (Some v) (Some (valueRenderer p v input));
           RequestValueAct (id p)]
  /\ value (state (this t')) = Some v
  /\ elicitationAction (state (this t')) = elicitationAction (state (this t))
  /\ canTakeInitiative input' t'
     = (Returned true, with_initiativeFunc (Some ConfirmValue) t').
Proof.
  intros p t' Hf Hv Hreq; subst t'.
  rewrite canTakeInitiative_eq.
  rewrite (handle_eq input t _ Hf); simpl call_handleFunc.
  unfold handleConfirmationDisaffirmed; unfold_monad; simpl.
  rewrite !existsb_app; simpl. rewrite !orb_true_r. simpl.
  fold p. rewrite Hv, Hreq. simpl.
  rewrite <- app_assoc. repeat split.
Qed.

Lemma disconfirmed_value_is_kept_witness :
  value (state (this Turns.no_turn)) = Some "Zed"
  /\ acts (resultBuilder (snd (handle Turns.no Turns.no_turn)))
     = [ValueDisconfirmedAct "playerName" (Some "Zed") (Some "Zed");
        RequestValueAct "playerName"]
  /\ acts (resultBuilder
             (snd (initiativeStep Invalid.launch
                     (with_acts (fun _ => []) (snd (handle Turns.no Turns.no_turn))))))
     = [ConfirmValueAct "playerName" (Some "Zed") (Some "Zed")].
Proof.
  split; [reflexivity |].
  destruct (disconfirmed_value_is_kept Turns.no Invalid.launch Turns.no_turn "Zed")
    as (_ & A & _ & _ & _); try reflexivity.
  split; [exact A | reflexivity].
Defined.

(** ** The elicitation action stays known *)

Lemma getValueResolution_outcome (input : ControlInput) (t : Turn) :
  (exists r, InputUtil.getValueResolution input t = (Returned r, t))
  \/ (exists m, InputUtil.getValueResolution input t = (Threw (TypeError m), t)).
Proof.
  unfold InputUtil.getValueResolution, InputUtil.intentOf, InputUtil.first_value.
  unfold bind, ret, throw.
  destruct (request input) as [i | |]; simpl; eauto.
  destruct (values i) as [| v0 vs]; simpl; eauto.
  destruct (slotValue v0); eauto.
Qed.

Lemma call_value_handler_throw (h : BuiltinHandler) (input : ControlInput) (t : Turn)
    (e : Exception) :
  takes_value h = true ->
  InputUtil.getValueResolution input t = (Threw e, t) ->
  call_builtin h input t = (Threw e, t).
Proof.
  intros Hh E.
  destruct h; try discriminate; simpl;
    unfold handleSetWithValue, handleChangeWithValue, handleBareValue, bind;
    rewrite E; reflexivity.
Qed.

Lemma known_action_set (a : string) (s : ValueControlState) :
  a = Strings.Action_Set \/ a = Strings.Action_Change ->
  known_action (set_elicitationAction (Some a) s) = true.
Proof. intros [-> | ->]; reflexivity. Qed.

Lemma attempted_action_known (h : BuiltinHandler) (s : ValueControlState) :
  known_action s = true ->
  attempted_action h s = Strings.Action_Set
  \/ attempted_action h s = Strings.Action_Change.
Proof.
  unfold known_action, attempted_action. intros H.
  destruct h; auto.
  destruct (elicitationAction s) as [a |]; auto.
  apply orb_true_iff in H. rewrite !String.eqb_eq in H. exact H.
Qed.

Lemma validateAndAddActs_outcome (input : ControlInput) (a : string) (t : Turn) :
  a = Strings.Action_Set \/ a = Strings.Action_Change ->
  returned_or_no_previous_value (fst (validateAndAddActs input a t)).
Proof.
  intros Ha. rewrite validateAndAddActs_eq. unfold reelicitation.
  destruct (evaluateValidationProp _ _ _); simpl.
  - destruct (String.eqb a Strings.Action_Change);
      [destruct (previousValue _) |]; simpl; [left | right | left]; reflexivity.
  - destruct Ha as [-> | ->]; simpl; left; reflexivity.
Qed.

Lemma initiativeStep_outcome (input : ControlInput) (t : Turn) :
  returned_or_no_previous_value (fst (initiativeStep input t)).
Proof.
  rewrite initiativeStep_eq.
  repeat match goal with
         | |- context [if ?b then _ else _] => destruct b
         end.
  - left; reflexivity.
  - apply validateAndAddActs_outcome. right; reflexivity.
  - left; reflexivity.
  - left; reflexivity.
Qed.

Lemma initiativeStep_known_action (input : ControlInput) (t : Turn) :
  known_action (state (this t)) = true ->
  known_action (state (this (snd (initiativeStep input t)))) = true.
Proof.
  intros H.
  destruct (initiativeStep_state input t) as [E | [E | [E | E]]]; rewrite E;
    try exact H; reflexivity.
Qed.

Lemma call_builtin_known_action (h : BuiltinHandler) (input : ControlInput) (t : Turn) :
  known_action (state (this t)) = true ->
  known_action (state (this (snd (call_builtin h input t)))) = true
  /\ no_other_error (fst (call_builtin h input t)).
Proof.
  intros H.
  destruct (takes_value h) eqn:Hh.
  - destruct (getValueResolution_outcome input t) as [[[v er] E] | [m E]].
    + rewrite (call_value_handler_eq h input t v er Hh) by (rewrite E; reflexivity).
      pose proof (attempted_action_known h _ H) as Ha.
      rewrite validateAndAddActs_state. split.
      * apply known_action_set, Ha.
      * destruct (validateAndAddActs_outcome input _
                    (with_state (after_setValue v er) t) Ha) as [O | O];
          rewrite O; [left | right; left]; reflexivity.
    + rewrite (call_value_handler_throw h input t _ Hh E). simpl.
      split; [exact H | right; right; eauto].
  - destruct h; try discriminate; simpl;
      unfold handleSetWithoutValue, handleChangeWithoutValue,
        handleConfirmationAffirmed, handleConfirmationDisaffirmed,
        askElicitationQuestion; unfold_monad; simpl;
      (split; [try exact H; reflexivity | left; reflexivity]).
Qed.

(** X8. [elicitationAction] stays unset, set or change: it is unset in
    a new state, and a control in such a state is in such a state after
    [handle] ran any built-in handler; the only Error that [handle] can
    then throw is the one of a ValueChangedAct without previous value,
    never the one of an unknown elicitation action. *)
Theorem elicitationAction_stays_known (h : BuiltinHandler)
    (input : ControlInput) (t : Turn) :
  known_action (state (this t)) = true ->
  handleFunc (this t) = Some (Builtin h) ->
  known_action (state (this (snd (handle input t)))) = true
  /\ no_other_error (fst (handle input t))
  /\ (forall msg, fst (handle input t) = Threw (Error msg) ->
                  msg = ValueChangedAct_message)
  /\ known_action new_ValueControlState = true.
Proof.
  intros H Hf.
  assert (G : known_action (state (this (snd (handle input t)))) = true
              /\ no_other_error (fst (handle input t))).
  { rewrite (handle_eq input t _ Hf); simpl call_handleFunc.
    destruct (call_builtin_known_action h input t H) as (K & O).
    destruct (call_builtin h input t) as [[[] | e] t1]; simpl in *.
    - destruct (existsb takesInitiative (acts (resultBuilder t1))); simpl.
      + split; [exact K | left; reflexivity].
      + split; [apply initiativeStep_known_action, K |].
        destruct (initiativeStep_outcome input t1) as [O' | O']; rewrite O';
          [left | right; left]; reflexivity.
    - split; assumption. }
  destruct G as (K & O). split; [exact K |]. split; [exact O |].
  split; [| reflexivity].
  intros msg E. rewrite E in O.
  destruct O as [O | [O | [m O]]]; try discriminate.
  injection O as ->. reflexivity.
Qed.

Lemma elicitationAction_stays_known_witness :
  known_action (state (this Turns.bare_turn)) = true
  /\ elicitationAction (state (this (snd (handle Turns.bare_4 Turns.bare_turn))))
     = Some Strings.Action_Change
  /\ known_action (state (this (snd (handle Turns.bare_4 Turns.bare_turn)))) = true.
Proof.
  split; [reflexivity |]. split; [reflexivity |].
  apply (elicitationAction_stays_known BareValue Turns.bare_4 Turns.bare_turn);
    reflexivity.
Defined.


(** ** canHandle, then handle *)









(** ** The initiative act comes last *)

Lemma initiative_only_last_app (l1 l2 : list SystemAct) :
  count_initiative l1 = 0 ->
  initiative_only_last l2 = true ->
  initiative_only_last (l1 ++ l2) = true.
Proof.
  unfold count_initiative.
  induction l1 as [| a l1 IH]; simpl; intros H0 H2; [exact H2 |].
  destruct (takesInitiative a); simpl in *; [discriminate |].
  destruct (l1 ++ l2); [reflexivity | apply IH; assumption].
Qed.

Lemma initiative_only_last_count (l : list SystemAct) :
  initiative_only_last l = true -> count_initiative l <= 1.
Proof.
  unfold count_initiative.
  induction l as [| a l IH]; simpl; intros H; [lia |].
  destruct l as [| a' l'].
  - simpl. destruct (takesInitiative a); simpl; lia.
  - apply andb_true_iff in H. destruct H as (Ha & Hl).
    destruct (takesInitiative a); [discriminate |]. apply IH, Hl.
Qed.

Lemma appends_initiative_last_content {A} (m : M A) :
  appends 0 m -> appends_initiative_last m.
Proof.
  intros H t. destruct (H t) as (new & E & C). exists new. split; [exact E |].
  rewrite <- (app_nil_r new). apply initiative_only_last_app; [lia | reflexivity].
Qed.

Lemma appends_initiative_last_bind {A B} (m : M A) (k : A -> M B) :
  appends 0 m -> (forall a, appends_initiative_last (k a)) ->
  appends_initiative_last (bind m k).
Proof.
  intros Hm Hk t. unfold bind.
  destruct (Hm t) as (new & E & C).
  destruct (m t) as [[a | e] u]; simpl in *.
  - destruct (Hk a u) as (new' & E' & C').
    exists (new ++ new'). rewrite E', E, app_assoc. split; [reflexivity |].
    apply initiative_only_last_app; [lia | exact C'].
  - exists new. split; [exact E |].
    rewrite <- (app_nil_r new). apply initiative_only_last_app; [lia | reflexivity].
Qed.

Lemma appends_initiative_last_addAct (a : SystemAct) :
  appends_initiative_last (addAct a).
Proof. intros t. exists [a]. split; reflexivity. Qed.

Ltac initiative_last_tac :=
  repeat match goal with
    | |- forall _, _ => intro
    | |- appends_initiative_last (bind _ _) => apply appends_initiative_last_bind
    | |- appends_initiative_last (addAct _) => apply appends_initiative_last_addAct
    | |- appends_initiative_last (if ?b then _ else _) => destruct b
    | |- appends_initiative_last (match ?x with _ => _ end) => destruct x
    | |- appends_initiative_last (throw _) =>
        apply appends_initiative_last_content, appends_throw
    | |- appends_initiative_last (ret _) =>
        apply appends_initiative_last_content, appends_ret
    | |- appends 0 (setValue _ _) => apply appends_setValue
    | |- appends 0 (InputUtil.getValueResolution _) => apply appends_getValueResolution
    | |- appends 0 (canTakeInitiative _) => apply appends_canTakeInitiative
    | |- appends 0 _ => progress appends_tac
    end.

Lemma appends_initiative_last_askElicitationQuestion (input : ControlInput) (a : string) :
  appends_initiative_last (askElicitationQuestion input a).
Proof. unfold askElicitationQuestion. initiative_last_tac. Qed.

Lemma appends_initiative_last_validateAndAddActs (input : ControlInput) (a : string) :
  appends_initiative_last (validateAndAddActs input a).
Proof.
  unfold validateAndAddActs. initiative_last_tac.
  apply appends_initiative_last_askElicitationQuestion.
Qed.

Lemma appends_initiative_last_call_builtin (h : BuiltinHandler) (input : ControlInput) :
  appends_initiative_last (call_builtin h input).
Proof.
  destruct h; simpl;
    unfold handleSetWithValue, handleChangeWithValue, handleSetWithoutValue,
      handleChangeWithoutValue, handleBareValue, handleConfirmationAffirmed,
      handleConfirmationDisaffirmed;
    repeat first
      [ apply appends_initiative_last_validateAndAddActs
      | apply appends_initiative_last_askElicitationQuestion
      | progress initiative_last_tac ].
Qed.

Lemma appends_initiative_last_initiativeStep (input : ControlInput) :
  appends_initiative_last (initiativeStep input).
Proof.
  unfold initiativeStep, takeInitiative, call_initiativeFunc, confirmValue,
    fixInvalidValue, elicitValue.
  repeat first
    [ apply appends_initiative_last_validateAndAddActs
    | apply appends_initiative_last_askElicitationQuestion
    | progress initiative_last_tac ].
Qed.

(** The acts of a turn: an initiative act at most as the last one. *)
Lemma handle_initiative_last (h : BuiltinHandler) (input : ControlInput) (t : Turn) :
  handleFunc (this t) = Some (Builtin h) ->
  existsb takesInitiative (acts (resultBuilder t)) = false ->
  exists new,
    acts (resultBuilder (snd (handle input t))) = acts (resultBuilder t) ++ new
    /\ initiative_only_last new = true.
Proof.
  intros Hf H0.
  rewrite (handle_eq input t _ Hf); simpl call_handleFunc.
  destruct (appends_initiative_last_call_builtin h input t) as (new & E & C).
  apply count_initiative_existsb in H0.
  destruct (call_builtin h input t) as [[[] | e] t1]; simpl in *;
    [| exists new; auto].
  destruct (existsb takesInitiative (acts (resultBuilder t1))) eqn:X; simpl;
    [exists new; auto |].
  apply count_initiative_existsb in X.
  rewrite E, count_initiative_app in X.
  destruct (appends_initiative_last_initiativeStep input t1) as (new' & E' & C').
  exists (new ++ new'). rewrite E', E, app_assoc. split; [reflexivity |].
  apply initiative_only_last_app; [lia | exact C'].
Qed.

(** X10. Content acts come before the initiative act: in the acts that
    [handle] appends through a built-in handler to a result without
    initiative act, no act but the last one is an initiative act. *)
Theorem initiative_act_is_last (h : BuiltinHandler) (input : ControlInput) (t : Turn) :
  handleFunc (this t) = Some (Builtin h) ->
  existsb takesInitiative (acts (resultBuilder t)) = false ->
  exists new,
    acts (resultBuilder (snd (handle input t))) = acts (resultBuilder t) ++ new
    /\ initiative_only_last new = true.
Proof. exact (handle_initiative_last h input t). Qed.

Lemma initiative_act_is_last_witness :
  acts (resultBuilder (snd (handle Scenarios.yes Turns.yes_turn)))
  = [ValueConfirmedAct "playerName" (Some "Zed") (Some "Zed");
     InvalidValueAct "playerName" (Some "Zed") (Some "Zed") (Some "NotMike") None;
     RequestChangedValueAct "playerName" (Some "Zed") (Some "Zed")]
  /\ exists new,
       acts (resultBuilder (snd (handle Scenarios.yes Turns.yes_turn)))
       = acts (resultBuilder Turns.yes_turn) ++ new
       /\ initiative_only_last new = true.
Proof.
  split; [reflexivity |].
  apply (initiative_act_is_last ConfirmationAffirmed Scenarios.yes Turns.yes_turn);
    reflexivity.
Defined.


(** ** The built-in predicates exclude one another *)

Lemma string_length_append (s1 s2 : string) :
  String.length (s1 ++ s2)%string = String.length s1 + String.length s2.
Proof. induction s1 as [| c s1 IH]; simpl; [reflexivity | now rewrite IH]. Qed.

Lemma ValueControlIntent_not_General (slot : string) :
  ValueControlIntent_intentName slot <> GeneralControlIntent_name.
Proof.
  unfold ValueControlIntent_intentName, GeneralControlIntent_name.
  destruct slot as [| c [| c' s]]; simpl; intros H.
  - discriminate.
  - injection H as _ H. discriminate.
  - apply (f_equal String.length) in H. simpl in H.
    rewrite string_length_append in H. simpl in H. lia.
Qed.

Lemma ValueControlIntent_not_short (slot n : string) :
  String.length n < 19 -> ValueControlIntent_intentName slot <> n.
Proof.
  unfold ValueControlIntent_intentName. intros Hn H.
  apply (f_equal String.length) in H.
  rewrite string_length_append in H. simpl in H. lia.
Qed.

Lemma isIntent_same (input : ControlInput) (n1 n2 : string) :
  InputUtil.isIntent input n1 = true -> InputUtil.isIntent input n2 = true -> n1 = n2.
Proof.
  unfold InputUtil.isIntent. destruct (request input); try discriminate.
  rewrite !String.eqb_eq. congruence.
Qed.

(** A built-in predicate returns true only on an input with the intent
    name and the action slot it asks for. *)
Lemma builtin_canHandle_asks (h : BuiltinHandler) (input : ControlInput) (t : Turn) :
  fst (builtin_canHandle h input t) = Returned true ->
  asks_of_input h (props (this t)) input = true.
Proof.
  intros H.
  destruct h; simpl in *;
    unfold isSetWithValue, isChangeWithValue, isSetWithoutValue, isChangeWithoutValue,
      isBareValue, isConfirmationAffirmed, isConfirmationDisaffirmed,
      InputUtil.isBareYes, InputUtil.isBareNo, intent_action,
      InputUtil.isIntent, InputUtil.intentOf, InputUtil.first_value in *;
    unfold_monad;
    destruct (request input) as [i | |]; simpl in *; try discriminate;
    try (destruct (values i) as [| v0 vs]; simpl in H);
    repeat match type of H with
           | context [if ?c then _ else _] => destruct c; simpl in H
           end;
    try discriminate; reflexivity.
Qed.

Lemma asks_of_input_exclusive (p : ValueControlProps) (input : ControlInput)
    (h1 h2 : BuiltinHandler) :
  disjoint_actions p ->
  asks_of_input h1 p input = true ->
  asks_of_input h2 p input = true ->
  h1 = h2.
Proof.
  intros D H1 H2.
  assert (Hact : forall a, InputUtil.actionIsMatch a (actions_set p) = true ->
                           InputUtil.actionIsMatch a (actions_change p) = true -> False).
  { intros [a |]; simpl; [| discriminate]. intros Hs Hc.
    rewrite (D a Hs) in Hc. discriminate. }
  assert (Hundef : forall a l, InputUtil.actionIsMatch a l = true ->
                               InputUtil.actionIsUndefined a = true -> False).
  { intros [a |] l; simpl; discriminate. }
  assert (Hname : forall n1 n2, InputUtil.isIntent input n1 = true ->
                                InputUtil.isIntent input n2 = true -> n1 <> n2 -> False).
  { intros n1 n2 A B N. apply N. exact (isIntent_same input n1 n2 A B). }
  pose proof (ValueControlIntent_not_General (slotType p)) as NG.
  assert (NY : ValueControlIntent_intentName (slotType p) <> "AMAZON.YesIntent")
    by (apply ValueControlIntent_not_short; simpl; lia).
  assert (NN : ValueControlIntent_intentName (slotType p) <> "AMAZON.NoIntent")
    by (apply ValueControlIntent_not_short; simpl; lia).
  destruct h1, h2; try reflexivity; exfalso; simpl in H1, H2;
    unfold InputUtil.isBareYes, InputUtil.isBareNo in *;
    repeat match goal with
           | H : _ && _ = true |- _ => apply andb_true_iff in H; destruct H
           end;
    solve
      [ eapply Hact; eassumption
      | eapply Hundef; eassumption
      | match goal with
        | A : InputUtil.isIntent input ?n1 = true,
          B : InputUtil.isIntent input ?n2 = true |- _ =>
            apply (Hname n1 n2 A B);
            first [ exact NG | exact NY | exact NN
                  | intro E; symmetry in E; revert E;
                    first [ exact NG | exact NY | exact NN ]
                  | discriminate ]
        end ].
Qed.

(** X11. The built-in input predicates exclude one another: when the
    action ids of set and of change share no id, no input makes two
    different built-in predicates return true on the same control. *)
Theorem builtin_predicates_are_exclusive (h1 h2 : BuiltinHandler)
    (input : ControlInput) (t : Turn) :
  disjoint_actions (props (this t)) ->
  fst (builtin_canHandle h1 input t) = Returned true ->
  fst (builtin_canHandle h2 input t) = Returned true ->
  h1 = h2.
Proof.
  intros D H1 H2.
  apply (asks_of_input_exclusive (props (this t)) input h1 h2 D);
    apply (builtin_canHandle_asks _ input t); assumption.
Qed.

Lemma builtin_predicates_are_exclusive_witness :
  fst (isSetWithValue Scenarios.set_Mike (Turns.fresh Scenarios.playerName_props))
  = Returned true
  /\ forall h,
       fst (builtin_canHandle h Scenarios.set_Mike
              (Turns.fresh Scenarios.playerName_props)) = Returned true ->
       SetWithValue = h.
Proof.
  split; [reflexivity |].
  intros h H.
  apply (builtin_predicates_are_exclusive SetWithValue h Scenarios.set_Mike
           (Turns.fresh Scenarios.playerName_props)).
  - intros a Ha. simpl in *.
    destruct (String.eqb a Strings.Action_Set) eqn:E; [| discriminate].
    apply String.eqb_eq in E. subst a. reflexivity.
  - reflexivity.
  - exact H.
Defined.

(** ** An initiative that is offered is delivered *)



(** ** A question asked is remembered *)



(** ** An action that is neither set nor change *)

(** X14. [validateAndAddActs] under an action that is neither set nor
    change records it in [elicitationAction] all the same; a value that
    passes validation is then acknowledged by a ValueSetAct, and for one
    that fails the InvalidValueAct is appended and the call throws the
    Error of an unknown elicitation action. *)
Theorem unknown_action (input : ControlInput) (a : string) (t : Turn) :
  let p := props (this t) in
  let s := set_elicitationAction (Some a) (state (this t)) in
  let r := validateAndAddActs input a t in
  String.eqb a Strings.Action_Set = false ->
  String.eqb a Strings.Action_Change = false ->
  state (this (snd r)) = s
  /\ match evaluateValidationProp (validation p) s input with
     | VTrue =>
         fst r = Returned tt
         /\ acts (resultBuilder (snd r))
            = acts (resultBuilder t)
              ++ [ValueSetAct (id p) (value s) (render p (value s) input)]
     | VFailure f =>
         fst r = Threw (Error ("Unhandled. Unknown elicitationAction: " ++ a)%string)
         /\ acts (resultBuilder (snd r))
            = acts (resultBuilder t)
              ++ [InvalidValueAct (id p) (value s) (render p (value s) input)
                    (reasonCode f) (renderedReason f)]
     end.
Proof.
  intros p s r Hs Hc; subst r.
  rewrite validateAndAddActs_eq. unfold reelicitation. rewrite Hs, Hc.
  destruct t as [[p0 s0 h i] [l]]; subst p s; simpl.
  destruct (evaluateValidationProp _ _ _); simpl; repeat split.
Qed.

Lemma unknown_action_witness :
  fst (validateAndAddActs Invalid.launch "builtin_clear" Invalid.Zed_turn)
  = Threw (Error "Unhandled. Unknown elicitationAction: builtin_clear")
  /\ acts (resultBuilder (snd (validateAndAddActs Invalid.launch "builtin_clear"
                                Invalid.Zed_turn)))
     = [InvalidValueAct "playerName" (Some "Zed") (Some "Zed") (Some "NotMike") None]
  /\ elicitationAction
       (state (this (snd (validateAndAddActs Invalid.launch "builtin_clear"
                           Invalid.Zed_turn))))
     = Some "builtin_clear".
Proof.
  destruct (unknown_action Invalid.launch "builtin_clear" Invalid.Zed_turn)
    as (S & O & A); try reflexivity.
  split; [exact O |]. split; [exact A |]. rewrite S. reflexivity.
Defined.

(** ** A fresh control *)

(** X15. A control fresh from its constructor whose props leave
    [required] out, or give one that is true at the input, takes the
    initiative to ask for its value: the initiative step returns
    normally, appends exactly a RequestValueAct of the control and
    records the action set; with a [required] that is false at the
    input it offers no initiative and appends nothing. *)
Theorem fresh_control_asks_for_its_value (p : Raw.ValueControlProps)
    (input : ControlInput) (l : list SystemAct) :
  match new_ValueControl p with
  | Threw _ => Raw.slotType p = AmazonBuiltInSlotType.SEARCH_QUERY
  | Returned c =>
      let t := {| this := c; resultBuilder := {| acts := l |} |} in
      if match Raw.required p with Some f => f input | None => true end
      then fst (canTakeInitiative input t) = Returned true
           /\ fst (initiativeStep input t) = Returned tt
           /\ acts (resultBuilder (snd (initiativeStep input t)))
              = l ++ [RequestValueAct (Raw.id p)]
           /\ elicitationAction (state (this (snd (initiativeStep input t))))
              = Some Strings.Action_Set
      else canTakeInitiative input t = (Returned false, t)
           /\ initiativeStep input t = (Returned tt, t)
  end.
Proof.
  unfold new_ValueControl.
  destruct (String.eqb_spec (Raw.slotType p) AmazonBuiltInSlotType.SEARCH_QUERY) as [E | E];
    [exact E |].
  cbv zeta. rewrite initiativeStep_eq, canTakeInitiative_eq. simpl.
  unfold merge_with.
  destruct (Raw.required p) as [f |]; [destruct (f input) |]; simpl; repeat split.
Qed.

(** ** Rendering *)

Lemma obj_get_set_same {V} (k : string) (v : V) (o : list (string * V)) :
  obj_get k (obj_set k v o) = Some v.
Proof.
  induction o as [| [k' v'] o IH]; simpl.
  - rewrite String.eqb_refl. reflexivity.
  - destruct (String.eqb k' k) eqn:E; simpl; rewrite E; [reflexivity | exact IH].
Qed.

Lemma obj_get_set_other {V} (k k' : string) (v : V) (o : list (string * V)) :
  k <> k' -> obj_get k (obj_set k' v o) = obj_get k o.
Proof.
  intros N. induction o as [| [k0 v0] o IH]; simpl.
  - destruct (String.eqb_spec k' k); [congruence | reflexivity].
  - destruct (String.eqb_spec k0 k') as [-> | N0]; simpl.
    + destruct (String.eqb_spec k' k); [congruence | reflexivity].
    + destruct (String.eqb k0 k); [reflexivity | exact IH].
Qed.

Lemma obj_set_keys {V} (k : string) (v : V) (o : list (string * V)) (x : string) :
  In x (map fst (obj_set k v o)) <-> x = k \/ In x (map fst o).
Proof.
  induction o as [| [k0 v0] o IH]; simpl.
  - intuition.
  - destruct (String.eqb_spec k0 k) as [-> | N]; simpl.
    + intuition.
    + rewrite IH. intuition.
Qed.

Lemma obj_set_NoDup {V} (k : string) (v : V) (o : list (string * V)) :
  NoDup (map fst o) -> NoDup (map fst (obj_set k v o)).
Proof.
  induction o as [| [k0 v0] o IH]; simpl; intros H.
  - constructor; [intros [] | constructor].
  - inversion H as [| ? ? Hn Hd]; subst.
    destruct (String.eqb_spec k0 k) as [-> | N]; simpl.
    + constructor; assumption.
    + constructor; [| apply IH, Hd].
      rewrite obj_set_keys. intros [E | E]; [congruence | contradiction].
Qed.

Lemma obj_set_length {V} (k : string) (v : V) (o : list (string * V)) :
  length (obj_set k v o)
  = if existsb (fun x => String.eqb x k) (map fst o) then length o else S (length o).
Proof.
  induction o as [| [k0 v0] o IH]; simpl; [reflexivity |].
  destruct (String.eqb k0 k); simpl; [reflexivity |].
  rewrite IH. destruct (existsb _ _); reflexivity.
Qed.

(** X16. [generateSlotElicitationDetails]: the slot to elicit is the
    slot type, the intent is the ValueControlIntent of the slot type,
    and its slots hold, each under its own name and empty, the slot to
    elicit and the six fixed slots, no name twice: seven slots, or six
    when the slot type is itself one of the six fixed names. *)
Theorem slot_to_elicit_is_in_the_intent (slot : string) :
  let d := generateSlotElicitationDetails slot in
  let slots := elicited_slots (fst d) in
  snd d = slot
  /\ elicited_name (fst d) = ValueControlIntent_intentName slot
  /\ (forall n, In n (slot :: fixed_slot_names) ->
                obj_get n slots = Some (empty_slot n))
  /\ (forall n, In n (map fst slots) <-> In n (slot :: fixed_slot_names))
  /\ NoDup (map fst slots)
  /\ length slots = if includes fixed_slot_names slot then 6 else 7.
Proof.
  intros d slots; subst d slots. unfold generateSlotElicitationDetails.
  cbn [fst snd elicited_slots elicited_name].
  split; [reflexivity |]. split; [reflexivity |].
  split; [| split; [| split]].
  - intros n Hn.
    assert (Hfixed : In n fixed_slot_names ->
              obj_get n
                (obj_set "assign" (empty_slot "assign")
                   (obj_set "tail" (empty_slot "tail")
                      (obj_set "head" (empty_slot "head")
                         (obj_set "target" (empty_slot "target")
                            (obj_set "action" (empty_slot "action")
                               (obj_set "feedback" (empty_slot "feedback")
                                  (obj_set slot (empty_slot slot) []))))))) =
              Some (empty_slot n)).
    { unfold fixed_slot_names. intros H. simpl in H.
      repeat (destruct H as [<- | H];
              [ repeat (rewrite obj_get_set_other by discriminate);
                apply obj_get_set_same | ]).
      destruct H. }
    destruct Hn as [<- | Hn]; [| exact (Hfixed Hn)].
    destruct (in_dec String.string_dec slot fixed_slot_names) as [Hin | Hout];
      [exact (Hfixed Hin) |].
    unfold fixed_slot_names in Hout. simpl in Hout.
    repeat (rewrite obj_get_set_other by (intros E; apply Hout; rewrite E; tauto)).
    apply obj_get_set_same.
  - intros n. rewrite !obj_set_keys. unfold fixed_slot_names. simpl. intuition.
  - repeat apply obj_set_NoDup. constructor.
  - rewrite !obj_set_length. unfold includes, fixed_slot_names. simpl.
    repeat match goal with
           | |- context [String.eqb slot ?c] =>
               destruct (String.eqb_spec slot c) as [-> | ?]; simpl
           end; reflexivity.
Qed.

Lemma renderAct_adds (p : ValueControlProps)
    (prompts reprompts : Prompts.ValueControlPromptProps)
    (act : SystemAct) (input : ControlInput) (b : ControlResponseBuilder) :
  let b' := renderAct p prompts reprompts act input b in
  (exists f, promptFragments b' = promptFragments b ++ [f])
  /\ (exists f, repromptFragments b' = repromptFragments b ++ [f])
  /\ elicitSlotDirectives b'
     = elicitSlotDirectives b
       ++ (if isRequest act
           then [(slotType p, fst (generateSlotElicitationDetails (slotType p)))]
           else []).
Proof.
  destruct act; simpl; rewrite ?app_nil_r; repeat split; eexists; reflexivity.
Qed.

Lemma renderActs_adds (p : ValueControlProps)
    (prompts reprompts : Prompts.ValueControlPromptProps)
    (l : list SystemAct) (input : ControlInput) (b : ControlResponseBuilder) :
  let b' := renderActs p prompts reprompts l input b in
  length (promptFragments b') = length (promptFragments b) + length l
  /\ length (repromptFragments b') = length (repromptFragments b) + length l
  /\ exists d,
       elicitSlotDirectives b' = elicitSlotDirectives b ++ d
       /\ length d = length (filter isRequest l)
       /\ Forall (eq (slotType p, fst (generateSlotElicitationDetails (slotType p)))) d.
Proof.
  unfold renderActs.
  revert b; induction l as [| act l IH]; intros b; simpl.
  - repeat split; try lia. exists []. rewrite app_nil_r. auto.
  - destruct (renderAct_adds p prompts reprompts act input b) as ((f & Hp) & (g & Hr) & Hd).
    destruct (IH (renderAct p prompts reprompts act input b)) as (Lp & Lr & d & Ed & Ld & Fd).
    rewrite Lp, Lr, Hp, Hr, !length_app. simpl.
    split; [lia |]. split; [lia |].
    rewrite Ed, Hd.
    destruct (isRequest act); simpl.
    + eexists. rewrite <- app_assoc. split; [reflexivity |].
      simpl. split; [now rewrite Ld | constructor; [reflexivity | exact Fd]].
    + exists d. rewrite app_nil_r. auto.
Qed.

Lemma filter_isRequest_count (l : list SystemAct) :
  length (filter isRequest l) <= count_initiative l.
Proof.
  unfold count_initiative.
  induction l as [| a l IH]; simpl; [lia |].
  destruct a; simpl; lia.
Qed.

(** X17. The acts of a turn, rendered: for the acts that [handle]
    leaves through a built-in handler in a result that held no
    initiative act, [renderAct] called on each in order adds one prompt
    fragment and one reprompt fragment per act and at most one
    elicit-slot directive, which asks for the slot of the rendering
    control; what the response held before is kept. *)
Theorem rendered_turn (h : BuiltinHandler) (input : ControlInput) (t : Turn)
    (p : ValueControlProps) (prompts reprompts : Prompts.ValueControlPromptProps)
    (b : ControlResponseBuilder) :
  handleFunc (this t) = Some (Builtin h) ->
  existsb takesInitiative (acts (resultBuilder t)) = false ->
  let l := acts (resultBuilder (snd (handle input t))) in
  let b' := renderActs p prompts reprompts l input b in
  length (promptFragments b') = length (promptFragments b) + length l
  /\ length (repromptFragments b') = length (repromptFragments b) + length l
  /\ exists d,
       elicitSlotDirectives b' = elicitSlotDirectives b ++ d
       /\ length d <= 1
       /\ Forall (eq (slotType p, fst (generateSlotElicitationDetails (slotType p)))) d.
Proof.
  intros Hf H0 l b'.
  destruct (renderActs_adds p prompts reprompts l input b) as (Lp & Lr & d & Ed & Ld & Fd).
  split; [exact Lp |]. split; [exact Lr |].
  exists d. split; [exact Ed |]. split; [| exact Fd].
  rewrite Ld.
  pose proof (filter_isRequest_count l) as Hle.
  destruct (handle_initiative_last h input t Hf H0) as (new & E & C).
  apply initiative_only_last_count in C.
  apply count_initiative_existsb in H0.
  subst l. rewrite E in Hle |- *. rewrite count_initiative_app in Hle. lia.
Qed.

Lemma rendered_turn_witness :
  renderActs (props (this Invalid.selected_turn))
    (Named.props_named "prompts") (Named.props_named "reprompts")
    (acts (resultBuilder (snd (handle Invalid.set_Zed Invalid.selected_turn))))
    Invalid.set_Zed Named.empty_response
  = {| promptFragments := ["prompts.invalidValue"; "prompts.requestValue"];
       repromptFragments := ["reprompts.invalidValue"; "reprompts.requestChangedValue"];
       elicitSlotDirectives :=
         [("CUSTOM.name", fst (generateSlotElicitationDetails "CUSTOM.name"))] |}
  /\ exists d,
       elicitSlotDirectives
         (renderActs (props (this Invalid.selected_turn))
            (Named.props_named "prompts") (Named.props_named "reprompts")
            (acts (resultBuilder (snd (handle Invalid.set_Zed Invalid.selected_turn))))
            Invalid.set_Zed Named.empty_response)
       = elicitSlotDirectives Named.empty_response ++ d
       /\ length d <= 1.
Proof.
  split; [reflexivity |].
  destruct (rendered_turn SetWithValue Invalid.set_Zed Invalid.selected_turn
              (props (this Invalid.selected_turn))
              (Named.props_named "prompts") (Named.props_named "reprompts")
              Named.empty_response) as (_ & _ & d & Ed & Ld & _); try reflexivity.
  exists d. split; [exact Ed | exact Ld].
Defined.

(** X18. The reprompts of the two requests are crossed: for a
    RequestValueAct [renderAct] takes the prompt from
    [prompts.requestValue] but the reprompt from
    [reprompts.requestChangedValue], and for a RequestChangedValueAct
    the prompt from [prompts.requestChangedValue] but the reprompt from
    [reprompts.requestValue]; for every other act prompt and reprompt
    come from the prop of the same name. *)
Theorem request_reprompts_are_crossed (p : ValueControlProps)
    (prompts reprompts : Prompts.ValueControlPromptProps)
    (act : SystemAct) (input : ControlInput) (b : ControlResponseBuilder) :
  let b' := renderAct p prompts reprompts act input b in
  let from (props : Prompts.ValueControlPromptProps) (crossed : bool) :=
    match act with
    | InvalidValueAct _ _ _ _ _ => Prompts.invalidValue props
    | ValueSetAct _ _ _ => Prompts.valueSet props
    | ValueChangedAct _ _ _ _ _ => Prompts.valueChanged props
    | RequestValueAct _ =>
        if crossed then Prompts.requestChangedValue props else Prompts.requestValue props
    | RequestChangedValueAct _ _ _ =>
        if crossed then Prompts.requestValue props else Prompts.requestChangedValue props
    | ConfirmValueAct _ _ _ => Prompts.confirmValue props
    | ValueConfirmedAct _ _ _ => Prompts.valueConfirmed props
    | ValueDisconfirmedAct _ _ _ => Prompts.valueDisconfirmed props
    end in
  promptFragments b' = promptFragments b ++ [from prompts false act input]
  /\ repromptFragments b' = repromptFragments b ++ [from reprompts true act input].
Proof. destruct act; split; reflexivity. Qed.

(** ** A yes to a valid value *)

(** X19. A yes confirms the value: [handle] with the handler of a yes,
    on a control whose value passes validation and from a result without
    initiative act, returns normally and appends exactly a
    ValueConfirmedAct for the value; the value is then confirmed, and
    the control offers no further initiative. *)
Theorem yes_confirms_a_valid_value (input : ControlInput) (t : Turn) (v : string) :
  let p := props (this t) in
  let s' := set_isValueConfirmed true
              (set_lastInitiative_actName None (state (this t))) in
  let t' := snd (handle input t) in
  handleFunc (this t) = Some (Builtin ConfirmationAffirmed) ->
  existsb takesInitiative (acts (resultBuilder t)) = false ->
  value (state (this t)) = Some v ->
  evaluateValidationProp (validation p) s' input = VTrue ->
  fst (handle input t) = Returned tt
  /\ acts (resultBuilder t')
     = acts (resultBuilder t)
       ++ [ValueConfirmedAct (id p) (Some v) (Some (valueRenderer p v input))]
  /\ state (this t') = s'
  /\ canTakeInitiative input t' = (Returned false, t').
Proof.
  intros p s' t' Hf H0 Hv Hval; subst p s' t'.
  rewrite canTakeInitiative_eq.
  rewrite (handle_eq input t _ Hf); simpl call_handleFunc.
  unfold handleConfirmationAffirmed; unfold_monad; simpl.
  rewrite existsb_app, H0; simpl.
  match goal with |- context [initiativeStep input ?u] =>
    rewrite (initiativeStep_eq input u); simpl end.
  rewrite Hval, Hv. simpl. rewrite Hval, ?Hv. simpl.
  repeat split.
Qed.

Lemma yes_confirms_a_valid_value_witness :
  acts (resultBuilder
          (snd (handle Scenarios.yes
                  (Turns.control_of Scenarios.playerName_props Turns.Zed_asked
                     (Some (Builtin ConfirmationAffirmed))))))
  = [ValueConfirmedAct "playerName" (Some "Zed") (Some "Zed")]
  /\ isValueConfirmed
       (state (this (snd (handle Scenarios.yes
                           (Turns.control_of Scenarios.playerName_props Turns.Zed_asked
                              (Some (Builtin ConfirmationAffirmed))))))) = true.
Proof.
  destruct (yes_confirms_a_valid_value Scenarios.yes
              (Turns.control_of Scenarios.playerName_props Turns.Zed_asked
                 (Some (Builtin ConfirmationAffirmed))) "Zed")
    as (_ & A & S & _); try reflexivity.
  split; [exact A | rewrite S; reflexivity].
Defined.

(** ** Props and their defaults *)

(** X20. [mergeWithDefaultProps] keeps [id] and [slotType]; a list of
    targets or of action ids that the user gives and that is not empty
    replaces the default, while one that is left out or empty leaves the
    default (builtin_it, builtin_set, builtin_change) in place;
    [required] defaults to true, [confirmationRequired] to false and
    [validation] to no function at all. *)
Theorem defaults_of_props (p : Raw.ValueControlProps) (input : ControlInput) :
  let q := mergeWithDefaultProps p in
  let list_or (d : string) (o : option (list string)) :=
    match o with Some (x :: l) => x :: l | _ => [d] end in
  id q = Raw.id p
  /\ slotType q = Raw.slotType p
  /\ targets q = list_or Strings.Target_It (Raw.targets p)
  /\ actions_set q = list_or Strings.Action_Set (Raw.actions_set p)
  /\ actions_change q = list_or Strings.Action_Change (Raw.actions_change p)
  /\ required q input
     = match Raw.required p with Some f => f input | None => true end
  /\ confirmationRequired q input
     = match Raw.confirmationRequired p with Some f => f input | None => false end
  /\ validation q = match Raw.validation p with Some fs => fs | None => [] end.
Proof.
  destruct p as [i st v r c tg aset achg ch vr]; simpl.
  split; [reflexivity |]. split; [reflexivity |].
  split; [destruct tg as [[| x [| y l]] |]; reflexivity |].
  split; [destruct aset as [[| x [| y l]] |]; reflexivity |].
  split; [destruct achg as [[| x [| y l]] |]; reflexivity |].
  split; [destruct r; reflexivity |].
  split; [destruct c; reflexivity | destruct v; reflexivity].
Qed.
